(** * Dutch Voice Companion: the interaction logic of the two HomeScreen components

    Two screens carry the logic verified here:
    - [Index]: DutchLearningApp/app/(tabs)/index.tsx, the basic screen;
    - [Home]: the screen with role descriptions, "Reset Context" and
      "Show Correction" (the second HomeScreen source).
    Both share [toggleRecording], [startRecording], [stopRecording],
    [uploadAudio] and [playAudio] word for word; these live in [Screen].

    Modelling choices.
    - A component's [useState] values are the record [Hooks]; a handler is a
      closure of one render, so it reads the hooks of that render (the
      argument [r]) and writes through the setters to the current [World].
    - [recordingRef] is a [useRef]: it is read and written in the world.
    - [await]ed calls into expo-av, fetch and expo-file-system are answered by
      an [Env]: each either rejects or resolves with a value.
    - [try]/[catch]/[finally] and exceptions are a state-and-error monad [M].
    - Everything the component does to the outside (alerts, console, network,
      sound) and every value given to [setMessages] is appended to [trace].
    - [View] holds the parts of the render that decide which gestures exist
      (the correction buttons, the disabled mic button); [Machine] runs
      sequences of gestures, each handler to completion.
    The mount effect (the permission request and its alert), the scroll ref
    and the style sheet take no part in any handler and are left out. *)

From Stdlib Require Import ZArith Bool Lia.
From stdpp Require Import base list strings.

Local Open Scope Z_scope.
Local Open Scope string_scope.
#[local] Set Warnings "-register-all".

(** ** JavaScript values, as far as the screens look at them *)

Module Js.

(** What [JSON.parse] / [response.json()] can give, plus [undefined] for a
    missing property. Numbers only matter through being zero or not. *)
Inductive Value : Type :=
| Undefined
| Null
| Bool (b : bool)
| Num (n : Z)
| Str (s : string)
| Arr (elems : list Value)
| Obj (fields : list (string * Value)).

Inductive Exn : Type :=
| TypeError (message : string)
| SyntaxError
| Error (message : string)
| Rejected (source : string).

Inductive Res (A : Type) : Type :=
| Ok (a : A)
| Throw (e : Exn).
Arguments Ok {A} a.
Arguments Throw {A} e.

(** ToBoolean *)
Definition truthy (v : Value) : bool :=
  match v with
  | Undefined | Null => false
  | Bool b => b
  | Num n => negb (Z.eqb n 0)
  | Str s => negb (String.eqb s "")
  | Arr _ | Obj _ => true
  end.

Fixpoint assoc (k : string) (fields : list (string * Value)) : Value :=
  match fields with
  | [] => Undefined
  | (k', v) :: rest => if String.eqb k k' then v else assoc k rest
  end.

(** [v.k] for one of the keys the screens read ([status], [user_text],
    [reply], [feedback], [audio]): a TypeError on [null] and [undefined],
    the field of an object, [undefined] on everything else. The message
    is the one V8 gives; other engines word it differently, and no
    property below depends on the wording. *)
Definition get (v : Value) (k : string) : Res Value :=
  match v with
  | Undefined =>
      Throw (TypeError ("Cannot read properties of undefined (reading '"
                          ++ k ++ "')"))
  | Null =>
      Throw (TypeError ("Cannot read properties of null (reading '"
                          ++ k ++ "')"))
  | Obj fields => Ok (assoc k fields)
  | _ => Ok Undefined
  end.

(** [v === 'lit'] *)
Definition strict_eq_str (v : Value) (lit : string) : bool :=
  match v with
  | Str s => String.eqb s lit
  | _ => false
  end.

End Js.

(** ** What both screens share *)

Module Screen.
Import Js.

(** ['waiter' | 'doctor' | 'grocery']: the pills are the only writers of
    [context]. *)
Inductive ScenarioId : Type := waiter | doctor | grocery.

Inductive Sender : Type := user | ai.

(** An element of [messages]. [None] is a field the object literal does
    not have. *)
Record Message : Type := {
  sender : Sender;
  text : Value;
  feedback : option Value;
  showFeedback : option bool
}.

Record Hooks : Type := {
  context : ScenarioId;
  userAiPairDescription : list string;
  liveFeedback : bool;
  messages : list Message;
  displayRoles : bool;
  isRecording : bool;
  isLoading : bool;
  refreshing : bool
}.

(** An [Audio.Recording]: whether [stopAndUnloadAsync] resolves, and what
    [getURI] returns. *)
Record Recording : Type := {
  stopAndUnloadAsync : bool;
  getURI : option string
}.

Inductive PlatformOS : Type := web | native.

(** A resolved HTTP exchange; [body] is [None] when the body is not JSON
    ([upload.json()] rejects, [JSON.parse(result.body)] throws). *)
Record HttpResponse : Type := {
  status : Z;
  body : option Value
}.

Record Env : Type := {
  Platform_OS : PlatformOS;
  Audio_setAudioModeAsync : bool;
  Audio_Recording_createAsync : option Recording;
  fetch_uri_blob : bool;
  fetch_chat_audio : option HttpResponse;
  FileSystem_uploadAsync : option HttpResponse;
  fetch_reset_context : option Z;
  Audio_Sound : bool
}.

Inductive Event : Type :=
| Alert_alert (title message : string)
| console_error (label : string) (error : Exn)
| console_log (label : string) (error : option Exn)
| SetMessages (next : list Message)
| CreateRecording
| StopAndUnload
| POST_chat_audio (os : PlatformOS) (uri : string) (ctx : ScenarioId) (live : bool)
| PUT_reset_context
| Sound_createAsync (base64Audio : Value)
| Sound_playAsync
| React_render_throws (error : Exn).

Record World : Type := {
  hooks : Hooks;
  recordingRef : option Recording;
  trace : list Event
}.

(** *** The monad *)

Definition M (A : Type) : Type := World -> Res A * World.

Definition ret {A} (a : A) : M A := fun w => (Ok a, w).

Definition bind {A B} (m : M A) (k : A -> M B) : M B :=
  fun w =>
    match m w with
    | (Ok a, w') => k a w'
    | (Throw e, w') => (Throw e, w')
    end.

Definition throw {A} (e : Exn) : M A := fun w => (Throw e, w).

Definition lift {A} (r : Res A) : M A := fun w => (r, w).

(** [try { body } catch (e) { handler }] *)
Definition try_catch {A} (body : M A) (handler : Exn -> M A) : M A :=
  fun w =>
    match body w with
    | (Ok a, w') => (Ok a, w')
    | (Throw e, w') => handler e w'
    end.

(** [try { body } finally { final }] *)
Definition try_finally {A} (body : M A) (final : M unit) : M A :=
  fun w =>
    match body w with
    | (r, w') =>
        match final w' with
        | (Ok _, w'') => (r, w'')
        | (Throw e, w'') => (Throw e, w'')
        end
    end.

Declare Scope js_scope.
Delimit Scope js_scope with js.
Notation "x <- m ;; k" := (bind m (fun x => k))
  (at level 100, m at next level, right associativity) : js_scope.
Notation "m ;; k" := (bind m (fun _ => k))
  (at level 100, right associativity) : js_scope.
Local Open Scope js_scope.

(** The world a handler leaves behind. *)
Definition after {A} (m : M A) (w : World) : World := snd (m w).

Definition emit (e : Event) : M unit :=
  fun w => (Ok tt, {| hooks := hooks w; recordingRef := recordingRef w;
                      trace := trace w ++ [e] |}).

Definition modify (f : Hooks -> Hooks) : M unit :=
  fun w => (Ok tt, {| hooks := f (hooks w); recordingRef := recordingRef w;
                      trace := trace w |}).

Definition set_recordingRef (v : option Recording) : M unit :=
  fun w => (Ok tt, {| hooks := hooks w; recordingRef := v; trace := trace w |}).

Definition get_recordingRef : M (option Recording) :=
  fun w => (Ok (recordingRef w), w).

(** *** The setters of [useState] *)

Definition with_context (c : ScenarioId) (h : Hooks) : Hooks :=
  {| context := c; userAiPairDescription := userAiPairDescription h;
     liveFeedback := liveFeedback h; messages := messages h;
     displayRoles := displayRoles h; isRecording := isRecording h;
     isLoading := isLoading h; refreshing := refreshing h |}.

Definition with_userAiPairDescription (d : list string) (h : Hooks) : Hooks :=
  {| context := context h; userAiPairDescription := d;
     liveFeedback := liveFeedback h; messages := messages h;
     displayRoles := displayRoles h; isRecording := isRecording h;
     isLoading := isLoading h; refreshing := refreshing h |}.

Definition with_liveFeedback (b : bool) (h : Hooks) : Hooks :=
  {| context := context h; userAiPairDescription := userAiPairDescription h;
     liveFeedback := b; messages := messages h;
     displayRoles := displayRoles h; isRecording := isRecording h;
     isLoading := isLoading h; refreshing := refreshing h |}.

Definition with_messages (l : list Message) (h : Hooks) : Hooks :=
  {| context := context h; userAiPairDescription := userAiPairDescription h;
     liveFeedback := liveFeedback h; messages := l;
     displayRoles := displayRoles h; isRecording := isRecording h;
     isLoading := isLoading h; refreshing := refreshing h |}.

Definition with_displayRoles (b : bool) (h : Hooks) : Hooks :=
  {| context := context h; userAiPairDescription := userAiPairDescription h;
     liveFeedback := liveFeedback h; messages := messages h;
     displayRoles := b; isRecording := isRecording h;
     isLoading := isLoading h; refreshing := refreshing h |}.

Definition with_isRecording (b : bool) (h : Hooks) : Hooks :=
  {| context := context h; userAiPairDescription := userAiPairDescription h;
     liveFeedback := liveFeedback h; messages := messages h;
     displayRoles := displayRoles h; isRecording := b;
     isLoading := isLoading h; refreshing := refreshing h |}.

Definition with_isLoading (b : bool) (h : Hooks) : Hooks :=
  {| context := context h; userAiPairDescription := userAiPairDescription h;
     liveFeedback := liveFeedback h; messages := messages h;
     displayRoles := displayRoles h; isRecording := isRecording h;
     isLoading := b; refreshing := refreshing h |}.

Definition with_refreshing (b : bool) (h : Hooks) : Hooks :=
  {| context := context h; userAiPairDescription := userAiPairDescription h;
     liveFeedback := liveFeedback h; messages := messages h;
     displayRoles := displayRoles h; isRecording := isRecording h;
     isLoading := isLoading h; refreshing := b |}.

Definition setContext (c : ScenarioId) : M unit := modify (with_context c).
Definition setUserAiPairDescription (d : list string) : M unit :=
  modify (with_userAiPairDescription d).
Definition setLiveFeedback (b : bool) : M unit := modify (with_liveFeedback b).
Definition setDisplayRoles (b : bool) : M unit := modify (with_displayRoles b).
Definition setIsRecording (b : bool) : M unit := modify (with_isRecording b).
Definition setIsLoading (b : bool) : M unit := modify (with_isLoading b).
Definition setRefreshing (b : bool) : M unit := modify (with_refreshing b).

(** [setMessages(value)] *)
Definition setMessages (l : list Message) : M unit :=
  modify (with_messages l);; emit (SetMessages l).

(** [setMessages(prev => ...)]: the call itself returns; React runs the
    updater on the current list. When the updater throws, no new list is
    stored and React rethrows the exception while rendering: the component
    fails to render, which the trace records. *)
Definition setMessages_with (updater : list Message -> Res (list Message)) : M unit :=
  fun w =>
    match updater (messages (hooks w)) with
    | Ok l => setMessages l w
    | Throw e => emit (React_render_throws e) w
    end.

(** *** playAudio *)

(** Not awaited by its caller and closed under its own [try]/[catch]: it
    never throws into [handleSuccess]. *)
Definition playAudio (env : Env) (base64Audio : Value) : M unit :=
  try_catch
    (emit (Sound_createAsync base64Audio);;
     (if Audio_Sound env then ret tt else throw (Rejected "Audio.Sound"));;
     emit Sound_playAsync)
    (fun e => emit (console_log "Play error" (Some e))).

(** *** uploadAudio, stopRecording, startRecording, toggleRecording *)

Section Handlers.
Variable env : Env.
(** [handleSuccess] of the screen, closed over the same render. *)
Variable handleSuccess : Hooks -> Value -> M unit.
(** The render whose closures run. *)
Variable r : Hooks.

Definition uploadAudio (uri : string) : M unit :=
  try_finally
    (try_catch
       (match Platform_OS env with
        | web =>
            (if fetch_uri_blob env then ret tt else throw (Rejected "fetch(uri)"));;
            emit (POST_chat_audio web uri (context r) (liveFeedback r));;
            match fetch_chat_audio env with
            | None => throw (Rejected "fetch")
            | Some upload =>
                match body upload with
                | None => throw SyntaxError
                | Some data => handleSuccess r data
                end
            end
        | native =>
            emit (POST_chat_audio native uri (context r) (liveFeedback r));;
            match FileSystem_uploadAsync env with
            | None => throw (Rejected "FileSystem.uploadAsync")
            | Some result =>
                if negb (Z.eqb (status result) 200) then throw (Error "Server Error")
                else
                  match body result with
                  | None => throw SyntaxError
                  | Some data => handleSuccess r data
                  end
            end
        end)
       (fun error =>
          emit (console_error "Upload Failed" error);;
          emit (Alert_alert "Connection Error" "Could not reach the AI server.")))
    (setIsLoading false).

Definition stopRecording : M unit :=
  setIsRecording false;;
  setIsLoading true;;
  recording <- get_recordingRef;;
  match recording with
  | None => setIsLoading false
  | Some recording =>
      try_catch
        (emit StopAndUnload;;
         (if stopAndUnloadAsync recording then ret tt
          else throw (Rejected "stopAndUnloadAsync"));;
         let uri := getURI recording in
         set_recordingRef None;;
         match uri with
         | Some uri =>
             if negb (String.eqb uri "") then uploadAudio uri
             else setIsLoading false
         | None => setIsLoading false
         end)
        (fun error =>
           emit (console_error "Stop Error:" error);;
           setIsLoading false)
  end.

Definition startRecording : M unit :=
  try_catch
    ((if Audio_setAudioModeAsync env then ret tt
      else throw (Rejected "Audio.setAudioModeAsync"));;
     emit CreateRecording;;
     match Audio_Recording_createAsync env with
     | None => throw (Rejected "Audio.Recording.createAsync")
     | Some recording =>
         set_recordingRef (Some recording);;
         setIsRecording true
     end)
    (fun err =>
       emit (console_error "Start Error:" err);;
       emit (Alert_alert "Error" "Could not start microphone.")).

Definition toggleRecording : M unit :=
  if isLoading r then ret tt
  else if isRecording r then stopRecording
  else startRecording.

End Handlers.

End Screen.

(** ** DutchLearningApp/app/(tabs)/index.tsx *)

Module Index.
Import Js Screen.
Local Open Scope js_scope.

Definition initial : Hooks :=
  {| context := waiter; userAiPairDescription := []; liveFeedback := true;
     messages := []; displayRoles := false; isRecording := false;
     isLoading := false; refreshing := false |}.

(** The updater handed to [setMessages]: it reads [data.user_text] and
    [data.reply] when it runs. *)
Definition handleSuccess_updater (data : Value) (prev : list Message)
  : Res (list Message) :=
  match get data "user_text" with
  | Throw e => Throw e
  | Ok user_text =>
      match get data "reply" with
      | Throw e => Throw e
      | Ok reply =>
          Ok (prev ++
              [ {| sender := user; text := user_text;
                   feedback := None; showFeedback := None |};
                {| sender := ai; text := reply;
                   feedback := None; showFeedback := None |} ])%list
      end
  end.

Definition handleSuccess (env : Env) (r : Hooks) (data : Value) : M unit :=
  st <- lift (get data "status");;
  if strict_eq_str st "success" then
    setMessages_with (handleSuccess_updater data);;
    audio <- lift (get data "audio");;
    if truthy audio then playAudio env audio else ret tt
  else
    emit (Alert_alert "AI Error" "Could not understand audio.").

Definition uploadAudio (env : Env) := Screen.uploadAudio env (handleSuccess env).
Definition stopRecording (env : Env) := Screen.stopRecording env (handleSuccess env).
Definition toggleRecording (env : Env) := Screen.toggleRecording env (handleSuccess env).

(** [onPress={() => setContext(c)}] of a context pill *)
Definition pill_onPress (c : ScenarioId) : M unit := setContext c.

(** [onValueChange={setLiveFeedback}] of the Live Corrections switch *)
Definition switch_onValueChange (b : bool) : M unit := setLiveFeedback b.

End Index.

(** ** The screen with role descriptions, reset and corrections *)

Module Home.
Import Js Screen.
Local Open Scope js_scope.

Definition user_ai_roles (c : ScenarioId) : list string :=
  match c with
  | waiter => ["international student ordering food/drinks";
               "polite waiter at a Dutch café"]
  | doctor => ["international student visiting as a patient";
               "Dutch General Practitioner ('huisarts')"]
  | grocery => ["customer checking out at the counter";
                "cashier at a Dutch supermarket"]
  end.

Definition initial : Hooks :=
  {| context := waiter; userAiPairDescription := user_ai_roles waiter;
     liveFeedback := true; messages := []; displayRoles := true;
     isRecording := false; isLoading := false; refreshing := false |}.

(** [liveFeedback && data.feedback ? data.feedback : null] *)
Definition feedback_of (live : bool) (data : Value) : M Value :=
  if live then
    f <- lift (get data "feedback");;
    if truthy f then lift (get data "feedback") else ret Null
  else ret Null.

Definition handleSuccess (env : Env) (r : Hooks) (data : Value) : M unit :=
  st <- lift (get data "status");;
  if strict_eq_str st "success" then
    user_text <- lift (get data "user_text");;
    fb <- feedback_of (liveFeedback r) data;;
    reply <- lift (get data "reply");;
    let newMessages :=
      [ {| sender := user; text := user_text;
           feedback := Some fb; showFeedback := Some false |};
        {| sender := ai; text := reply;
           feedback := None; showFeedback := None |} ] in
    setMessages_with (fun prev => Ok (prev ++ newMessages)%list);;
    audio <- lift (get data "audio");;
    if truthy audio then playAudio env audio else ret tt
  else
    emit (Alert_alert "AI Error" "Could not understand audio.").

Definition uploadAudio (env : Env) := Screen.uploadAudio env (handleSuccess env).
Definition stopRecording (env : Env) := Screen.stopRecording env (handleSuccess env).
Definition toggleRecording (env : Env) := Screen.toggleRecording env (handleSuccess env).

(** [updated[index]] for a number [index] *)
Definition array_get (l : list Message) (index : Z) : option Message :=
  if Z.leb 0 index then l !! Z.to_nat index else None.

(** The updater of [toggleFeedback]. Reading [.sender] of a missing
    element is a TypeError. *)
Definition toggleFeedback_updater (index : Z) (prev : list Message)
  : Res (list Message) :=
  let updated := prev in
  match array_get updated index with
  | None => Throw (TypeError "Cannot read properties of undefined (reading 'sender')")
  | Some m =>
      match sender m with
      | user =>
          Ok (<[Z.to_nat index :=
                  {| sender := sender m; text := text m; feedback := feedback m;
                     showFeedback := Some (negb (default false (showFeedback m))) |}]>
                updated)
      | ai => Ok updated
      end
  end.

Definition toggleFeedback (index : Z) : M unit :=
  setMessages_with (toggleFeedback_updater index).

Definition resetHistory (env : Env) : M unit :=
  setDisplayRoles false;;
  try_catch
    (emit PUT_reset_context;;
     match fetch_reset_context env with
     | None => throw (Rejected "fetch")
     | Some reset_status =>
         (if negb (Z.eqb reset_status 204)
          then emit (console_log "Could not reset history." None)
          else ret tt);;
         setMessages [];;
         setDisplayRoles true
     end)
    (fun e => emit (console_log "" (Some e))).

Definition onRefresh (env : Env) : M unit :=
  setRefreshing true;;
  resetHistory env;;
  setRefreshing false.

(** [onPress] of a context pill *)
Definition pill_onPress (c : ScenarioId) : M unit :=
  setUserAiPairDescription (user_ai_roles c);;
  setMessages [];;
  setContext c;;
  setDisplayRoles true.

(** [onValueChange={setLiveFeedback}] of the Live Corrections switch *)
Definition switch_onValueChange (b : bool) : M unit := setLiveFeedback b.

End Home.

(** ** Runs of a screen, and the values the examples use *)

Module Session.
Import Js Screen.

(** The ConversationLog of a world. *)
Definition log (w : World) : list Message := messages (hooks w).

(** The values [messages] took, in order: what a render can observe. *)
Definition writes (t : list Event) : list (list Message) :=
  omap (fun e => match e with SetMessages l => Some l | _ => None end) t.

(** [data.status === 'success'] evaluates to true. *)
Definition is_success (data : Value) : bool :=
  match get data "status" with
  | Ok st => strict_eq_str st "success"
  | Throw _ => false
  end.

(** The object [data] has no property [k]. *)
Definition absent (k : string) (data : Value) : Prop :=
  match data with
  | Obj fields => forall v, ~ In (k, v) fields
  | _ => True
  end.

(** From [w], the handler ended in [out] having appended one exchange:
    two turns, User then AI, stored by a single write of [messages]. *)
Definition exchange_appended (w : World) (out : Res unit * World) : Prop :=
  exists u a,
    fst out = Ok tt /\
    sender u = user /\ sender a = ai /\
    log (snd out) = (log w ++ [u; a])%list /\
    length (log (snd out)) = (length (log w) + 2)%nat /\
    writes (trace (snd out)) = (writes (trace w) ++ [log w ++ [u; a]])%list.

(** From [w], the handler ended in [out] having appended a User and an AI
    turn whose texts are whatever [data.user_text] and [data.reply] are. *)
Definition appended_unvalidated (data : Value) (w : World)
    (out : Res unit * World) : Prop :=
  exists u a,
    log (snd out) = (log w ++ [u; a])%list /\
    sender u = user /\ sender a = ai /\
    get data "user_text" = Ok (text u) /\
    get data "reply" = Ok (text a) /\
    (absent "user_text" data -> text u = Undefined) /\
    (absent "reply" data -> text a = Undefined).

(** [index] is not the position of a turn of [l]. *)
Definition out_of_range (index : Z) (l : list Message) : Prop :=
  (index < 0)%Z \/ (Z.of_nat (length l) <= index)%Z.

(** What the service's answer is, for the native upload: a transport
    failure is a rejected call, a status other than 200 or a body that is
    not JSON. *)
Definition transport_failure (response : option HttpResponse) : Prop :=
  match response with
  | None => True
  | Some res => status res <> 200%Z \/ body res = None
  end.

(** A notice was put in front of the user. *)
Definition alerted (t : list Event) : Prop :=
  exists title message, In (Alert_alert title message) t.

(** The controller is Idle: not recording, nothing in flight. *)
Definition idle (h : Hooks) : Prop :=
  isRecording h = false /\ isLoading h = false.

Definition start (h : Hooks) : World :=
  {| hooks := h; recordingRef := None; trace := [] |}.

(** Responses handled one after the other, each by the [handleSuccess] of
    the render it was issued from. *)
Definition handle_all (handleSuccess : Hooks -> Value -> M unit)
    (ds : list (Hooks * Value)) (w : World) : World :=
  fold_left (fun w d => after (handleSuccess (fst d) (snd d)) w) ds w.

(** The Live Corrections switch moved several times. *)
Definition switch_all (bs : list bool) (w : World) : World :=
  fold_left (fun w b => after (setLiveFeedback b) w) bs w.

Definition koffie : Value :=
  Obj [ ("status", Str "success");
        ("user_text", Str "Ik wil een koffie");
        ("reply", Str "Hier is uw koffie.");
        ("feedback", Str "Gebruik 'graag' voor beleefdheid.");
        ("audio", Str "SGllciBpcyB1dyBrb2ZmaWUu") ].

Definition bare_success : Value := Obj [ ("status", Str "success") ].

Definition a_recording : Recording :=
  {| stopAndUnloadAsync := true; getURI := Some "file:///rec.m4a" |}.

(** An environment in which every call resolves and the service answers
    [response]. *)
Definition env_of (os : PlatformOS) (response : option HttpResponse) : Env :=
  {| Platform_OS := os; Audio_setAudioModeAsync := true;
     Audio_Recording_createAsync := Some a_recording;
     fetch_uri_blob := true; fetch_chat_audio := response;
     FileSystem_uploadAsync := response;
     fetch_reset_context := Some 204; Audio_Sound := true |}.

(** Like [env_of], with the answer of PUT /reset_context. *)
Definition env_reset (reset : option Z) : Env :=
  {| Platform_OS := native; Audio_setAudioModeAsync := true;
     Audio_Recording_createAsync := Some a_recording;
     fetch_uri_blob := true; fetch_chat_audio := None;
     FileSystem_uploadAsync := None;
     fetch_reset_context := reset; Audio_Sound := true |}.

Definition user_turn (t : string) (fb : Value) : Message :=
  {| sender := user; text := Str t; feedback := Some fb;
     showFeedback := Some false |}.

Definition ai_turn (t : string) : Message :=
  {| sender := ai; text := Str t; feedback := None; showFeedback := None |}.

(** A Home world with one exchange in the log. *)
Definition talked : World :=
  start (with_messages [user_turn "Ik wil een koffie" (Str "Gebruik 'graag'.");
                        ai_turn "Hier is uw koffie."] Home.initial).

End Session.

(** ** What the screen with corrections renders *)

Module View.
Import Js Screen.

(** [msg.feedback] as a condition: a missing field is [undefined]. *)
Definition truthy_field (f : option Value) : bool :=
  match f with
  | Some v => truthy v
  | None => false
  end.

(** [msg.sender === 'user' && msg.feedback && <TouchableOpacity ...>]: the
    label of the button that calls [toggleFeedback(index)], when the turn
    gets one. *)
Definition correction_button (msg : Message) : option string :=
  match sender msg with
  | user =>
      if truthy_field (feedback msg)
      then Some (if default false (showFeedback msg)
                 then "Hide Correction" else "Show Correction")
      else None
  | ai => None
  end.

(** [msg.sender === 'user' && msg.showFeedback && msg.feedback && <View ...>]:
    the correction shown under the turn. *)
Definition feedback_bubble (msg : Message) : option Value :=
  match sender msg with
  | user =>
      if default false (showFeedback msg) && truthy_field (feedback msg)
      then feedback msg else None
  | ai => None
  end.

(** [messages.map((msg, index) => ...)]: the indices whose turn is rendered
    with a correction button, each with the button's label. *)
Definition correction_buttons (l : list Message) : list (Z * string) :=
  omap (fun p => option_map (pair (Z.of_nat (fst p))) (correction_button (snd p)))
       (imap pair l).

(** [disabled={isLoading}] of the mic button *)
Definition mic_disabled (h : Hooks) : bool := isLoading h.

End View.

(** ** The screen with corrections as a machine driven by the user

    One [Action] is one gesture the rendered screen accepts; [step] runs
    its handler, with the closures of the current render, to completion.
    Gestures that arrive while a handler is suspended at an [await] are
    not modelled, so only properties that every single write preserves
    are stated over [run]. *)

Module Machine.
Import Js Screen View.

Inductive Action : Type :=
| Tap (env : Env)
| Pill (c : ScenarioId)
| Switch (b : bool)
| ResetContext (env : Env)
| PullToRefresh (env : Env)
| Correction (index : Z).

(** The gesture reaches a handler: the mic button is disabled while
    loading, and only rendered correction buttons can be pressed. *)
Definition enabled (a : Action) (h : Hooks) : bool :=
  match a with
  | Tap _ => negb (mic_disabled h)
  | Correction index =>
      existsb (Z.eqb index) (map fst (correction_buttons (messages h)))
  | _ => true
  end.

Definition handler (a : Action) (r : Hooks) : M unit :=
  match a with
  | Tap env => Home.toggleRecording env r
  | Pill c => Home.pill_onPress c
  | Switch b => Home.switch_onValueChange b
  | ResetContext env => Home.resetHistory env
  | PullToRefresh env => Home.onRefresh env
  | Correction index => Home.toggleFeedback index
  end.

Definition step (w : World) (a : Action) : World :=
  if enabled a (hooks w) then after (handler a (hooks w)) w else w.

Definition run (actions : list Action) (w : World) : World :=
  fold_left step actions w.

(** The first render. *)
Definition mounted : World :=
  {| hooks := Home.initial; recordingRef := None; trace := [] |}.

(** Senders come in pairs, User then AI. *)
Fixpoint alternating (ss : list Sender) : bool :=
  match ss with
  | [] => true
  | user :: ai :: rest => alternating rest
  | _ => false
  end.

Definition paired (l : list Message) : Prop :=
  alternating (map sender l) = true.

(** The fields a turn of this screen has: a User turn has a [feedback]
    that is [null] or truthy and a boolean [showFeedback]; an AI turn has
    neither field. *)
Definition shaped (m : Message) : Prop :=
  match sender m with
  | user =>
      (exists fb, feedback m = Some fb /\ (fb = Null \/ truthy fb = true)) /\
      (exists b, showFeedback m = Some b)
  | ai => feedback m = None /\ showFeedback m = None
  end.

(** The requests for /chat-audio in a trace. *)
Definition posts (t : list Event) : list Event :=
  List.filter
    (fun e => match e with POST_chat_audio _ _ _ _ => true | _ => false end) t.

(** What a [handleSuccess] may do: store a new list of messages, only
    for a success response and then without raising, and add events other
    than requests; the new list keeps the property [Inv] of the log. *)
Definition appends_only (Inv : list Message -> Prop)
    (hs : Hooks -> Value -> M unit) : Prop :=
  forall r data w,
  exists res msgs added,
    hs r data w =
    (res, {| hooks := with_messages msgs (hooks w);
             recordingRef := recordingRef w;
             trace := (trace w ++ added)%list |}) /\
    posts added = [] /\
    (msgs <> messages (hooks w) ->
     res = Ok tt /\ Session.is_success data = true) /\
    (Inv (messages (hooks w)) -> Inv msgs).

(** The log of the screen with corrections is made of shaped pairs. *)
Definition home_log (l : list Message) : Prop :=
  paired l /\ Forall shaped l.

(** What every write of the handlers keeps: the log is made of shaped
    pairs and the role descriptions are those of the context. *)
Definition invariant (w : World) : Prop :=
  home_log (messages (hooks w)) /\
  userAiPairDescription (hooks w) = Home.user_ai_roles (context (hooks w)).

(** The answer of the service as the branch in use sees it. *)
Definition response_of (env : Env) : option HttpResponse :=
  match Platform_OS env with
  | web => if fetch_uri_blob env then fetch_chat_audio env else None
  | native => FileSystem_uploadAsync env
  end.

(** The exchange with the service failed in transport: no answer (or, on
    the web, no blob to send), a body that is not JSON, or, on the native
    branch, a status other than 200. *)
Definition transport_rejected (env : Env) : Prop :=
  match response_of env with
  | None => True
  | Some res =>
      body res = None \/ (Platform_OS env = native /\ status res <> 200%Z)
  end.

(** The label a correction button changes to when pressed. *)
Definition other_label (label : string) : string :=
  if String.eqb label "Show Correction" then "Hide Correction"
  else "Show Correction".

(** What [resetHistory] adds to the trace after its request: console
    lines and the write of the empty list. *)
Definition reset_event (e : Event) : Prop :=
  match e with
  | console_log _ _ => True
  | SetMessages l => l = []
  | _ => False
  end.

(** A turn without its [showFeedback] flag. *)
Definition content (m : Message) : Sender * Value * option Value :=
  (sender m, text m, feedback m).

End Machine.

(** * Properties *)

Module Recording_props.
Import Js Screen Session.

Section Shared.
Variable env : Env.
Variable handleSuccess : Hooks -> Value -> M unit.

(** C8. While an upload is in flight ([isLoading] true in the render the
    tap comes from) [toggleRecording] returns at once: the world is the
    same one, so messages, isRecording and recordingRef are unchanged and
    neither a capture nor an upload is started (the trace is unchanged). *)
Theorem toggleRecording_ignored_while_loading (r : Hooks) (w : World) :
  isLoading r = true ->
  Screen.toggleRecording env handleSuccess r w = (Ok tt, w).
Proof.
  intros Hload. unfold Screen.toggleRecording. now rewrite Hload.
Qed.

(** C7, amended. [stopRecording] with no active recording
    ([recordingRef.current] is null) takes the bare [return]: it returns
    normally, with no value and no error, leaves the log and the trace as
    they were (nothing appended, nothing stopped, nothing uploaded, no
    alert) and ends Idle ([isRecording] false, [isLoading] false). *)
Theorem stopRecording_without_recording (r : Hooks) (w : World) :
  recordingRef w = None ->
  let out := Screen.stopRecording env handleSuccess r w in
  fst out = Ok tt /\
  idle (hooks (snd out)) /\
  log (snd out) = log w /\
  trace (snd out) = trace w /\
  recordingRef (snd out) = None.
Proof.
  intros Href. unfold Screen.stopRecording, bind, get_recordingRef.
  cbn. rewrite Href. cbn. unfold idle, log. cbn. auto.
Qed.

End Shared.

Lemma toggleRecording_ignored_while_loading_witness :
  Home.toggleRecording (env_of native None)
    (with_isLoading true Home.initial)
    (start (with_isLoading true Home.initial))
  = (Ok tt, start (with_isLoading true Home.initial)).
Proof.
  apply (toggleRecording_ignored_while_loading (env_of native None)
           (Home.handleSuccess (env_of native None))
           (with_isLoading true Home.initial)).
  reflexivity.
Defined.

(** C7, as stated, fails: no CaptureError is returned. Without a
    recording [stopRecording] gives the caller the same result as a stop
    that recorded, uploaded and appended an exchange, and that result is
    not an error. *)
Lemma stopRecording_returns_no_error :
  let heard := env_of native (Some {| status := 200; body := Some koffie |}) in
  let nothing := Home.stopRecording heard Home.initial (start Home.initial) in
  let captured :=
    Home.stopRecording heard (with_isRecording true Home.initial)
      {| hooks := with_isRecording true Home.initial;
         recordingRef := Some a_recording; trace := [] |} in
  recordingRef (start Home.initial) = None /\
  length (log (snd captured)) = 2%nat /\
  fst nothing = fst captured /\
  fst nothing = Ok tt /\
  forall e, fst nothing <> Throw e.
Proof. cbn. repeat split. intros e. discriminate. Qed.

Lemma stopRecording_without_recording_witness :
  let out := Index.stopRecording (env_of web None) Index.initial
               (start Index.initial) in
  fst out = Ok tt /\
  idle (hooks (snd out)) /\
  log (snd out) = log (start Index.initial) /\
  trace (snd out) = trace (start Index.initial) /\
  recordingRef (snd out) = None.
Proof.
  apply (stopRecording_without_recording (env_of web None)
           (Index.handleSuccess (env_of web None)) Index.initial
           (start Index.initial)).
  reflexivity.
Defined.

End Recording_props.

Module Log_props.
Import Js Screen Session.
Local Open Scope list_scope.

Ltac run :=
  unfold Home.handleSuccess, Index.handleSuccess, Home.feedback_of,
    Index.handleSuccess_updater, setMessages_with, setMessages, playAudio,
    try_catch, try_finally, bind, lift, ret, throw, emit, modify, after, log;
  cbn.

Lemma success_is_object (data : Value) :
  is_success data = true ->
  exists fields, data = Obj fields /\
                 strict_eq_str (assoc "status" fields) "success" = true.
Proof.
  unfold is_success. destruct data; cbn; try discriminate. eauto.
Qed.

Lemma writes_app (t1 t2 : list Event) : writes (t1 ++ t2) = writes t1 ++ writes t2.
Proof. unfold writes. apply omap_app. Qed.

(** What [Home.handleSuccess] does with a success object, in full. *)
Lemma Home_handleSuccess_success env r fields w :
  strict_eq_str (assoc "status" fields) "success" = true ->
  let fb := if liveFeedback r && truthy (assoc "feedback" fields)
            then assoc "feedback" fields else Null in
  let next := log w ++
              [ {| sender := user; text := assoc "user_text" fields;
                   feedback := Some fb; showFeedback := Some false |};
                {| sender := ai; text := assoc "reply" fields;
                   feedback := None; showFeedback := None |} ] in
  let sound :=
    if truthy (assoc "audio" fields)
    then [ Sound_createAsync (assoc "audio" fields);
           if Audio_Sound env then Sound_playAsync
           else console_log "Play error" (Some (Rejected "Audio.Sound")) ]
    else [] in
  Home.handleSuccess env r (Obj fields) w =
  (Ok tt, {| hooks := with_messages next (hooks w);
             recordingRef := recordingRef w;
             trace := trace w ++ SetMessages next :: sound |}).
Proof.
  intros Hs. run. rewrite Hs.
  destruct (liveFeedback r), (truthy (assoc "feedback" fields)),
    (truthy (assoc "audio" fields)), (Audio_Sound env); cbn;
    rewrite <- ?app_assoc; cbn; try reflexivity;
    rewrite ?app_nil_r; reflexivity.
Qed.

(** The same for [Index.handleSuccess]. *)
Lemma Index_handleSuccess_success env r fields w :
  strict_eq_str (assoc "status" fields) "success" = true ->
  let next := log w ++
              [ {| sender := user; text := assoc "user_text" fields;
                   feedback := None; showFeedback := None |};
                {| sender := ai; text := assoc "reply" fields;
                   feedback := None; showFeedback := None |} ] in
  let sound :=
    if truthy (assoc "audio" fields)
    then [ Sound_createAsync (assoc "audio" fields);
           if Audio_Sound env then Sound_playAsync
           else console_log "Play error" (Some (Rejected "Audio.Sound")) ]
    else [] in
  Index.handleSuccess env r (Obj fields) w =
  (Ok tt, {| hooks := with_messages next (hooks w);
             recordingRef := recordingRef w;
             trace := trace w ++ SetMessages next :: sound |}).
Proof.
  intros Hs. run. rewrite Hs.
  destruct (truthy (assoc "audio" fields)), (Audio_Sound env); cbn;
    rewrite <- ?app_assoc; cbn; try reflexivity;
    rewrite ?app_nil_r; reflexivity.
Qed.

Lemma writes_sound (env : Env) (audio : Value) :
  writes (if truthy audio
          then [ Sound_createAsync audio;
                 if Audio_Sound env then Sound_playAsync
                 else console_log "Play error" (Some (Rejected "Audio.Sound")) ]
          else []) = [].
Proof. destruct (truthy audio), (Audio_Sound env); reflexivity. Qed.

(** C6. On either screen, handling a success response appends exactly two
    turns, User then AI, so the log grows by 2; [messages] is written once,
    with both turns, so no observer sees the User turn without its reply. *)
Theorem appendExchange_two_turns_atomic env r data w :
  is_success data = true ->
  exchange_appended w (Home.handleSuccess env r data w) /\
  exchange_appended w (Index.handleSuccess env r data w).
Proof.
  intros Hs. apply success_is_object in Hs as (fields & -> & Hs).
  unfold exchange_appended. split.
  - rewrite (Home_handleSuccess_success env r fields w Hs). cbn.
    do 2 eexists. repeat split; try reflexivity.
    + rewrite length_app. reflexivity.
    + fold (writes (trace w)). rewrite writes_app. cbn. now rewrite writes_sound.
  - rewrite (Index_handleSuccess_success env r fields w Hs). cbn.
    do 2 eexists. repeat split; try reflexivity.
    + rewrite length_app. reflexivity.
    + fold (writes (trace w)). rewrite writes_app. cbn. now rewrite writes_sound.
Qed.

Lemma appendExchange_two_turns_atomic_witness :
  exchange_appended talked
    (Home.handleSuccess (env_of native None) Home.initial koffie talked) /\
  exchange_appended talked
    (Index.handleSuccess (env_of native None) Home.initial koffie talked).
Proof.
  apply (appendExchange_two_turns_atomic (env_of native None) Home.initial
           koffie talked).
  reflexivity.
Defined.

Lemma absent_assoc (k : string) (fields : list (string * Value)) :
  (forall v, ~ In (k, v) fields) -> assoc k fields = Undefined.
Proof.
  induction fields as [| [k' v'] rest IH]; intros Hno; cbn; [reflexivity |].
  destruct (String.eqb_spec k k') as [-> | Hne].
  - exfalso. apply (Hno v'). now left.
  - apply IH. intros v Hin. apply (Hno v). now right.
Qed.

(** C9. A response object whose [status] is ['success'] gets its two turns
    appended whatever [user_text], [reply] and [feedback] are: the turns
    carry [data.user_text] and [data.reply] as they are, and [undefined]
    when the object lacks them. Nothing checks that they are present. *)
Theorem handleSuccess_appends_unvalidated env r data w :
  is_success data = true ->
  appended_unvalidated data w (Home.handleSuccess env r data w) /\
  appended_unvalidated data w (Index.handleSuccess env r data w).
Proof.
  intros Hs. apply success_is_object in Hs as (fields & -> & Hs).
  unfold appended_unvalidated. split.
  - rewrite (Home_handleSuccess_success env r fields w Hs). cbn.
    do 2 eexists. repeat split; try reflexivity; cbn; apply absent_assoc.
  - rewrite (Index_handleSuccess_success env r fields w Hs). cbn.
    do 2 eexists. repeat split; try reflexivity; cbn; apply absent_assoc.
Qed.

Lemma handleSuccess_appends_unvalidated_witness :
  appended_unvalidated bare_success talked
    (Home.handleSuccess (env_of web None) Home.initial bare_success talked) /\
  appended_unvalidated bare_success talked
    (Index.handleSuccess (env_of web None) Home.initial bare_success talked).
Proof.
  apply (handleSuccess_appends_unvalidated (env_of web None) Home.initial
           bare_success talked).
  reflexivity.
Defined.

(** The turns of the witness above, spelled out: both texts are
    [undefined]. *)
Example bare_success_turns :
  log (snd (Home.handleSuccess (env_of web None) Home.initial bare_success
              (start Home.initial)))
  = [ {| sender := user; text := Undefined; feedback := Some Null;
         showFeedback := Some false |};
      {| sender := ai; text := Undefined; feedback := None;
         showFeedback := None |} ].
Proof. reflexivity. Qed.

(** C5, as stated, fails on the basic screen: with Live Corrections on
    and the feedback supplied, the User turn it appends has no feedback. *)
Lemma Index_user_turn_without_feedback :
  liveFeedback Index.initial = true /\
  is_success koffie = true /\
  get koffie "feedback" = Ok (Str "Gebruik 'graag' voor beleefdheid.") /\
  ~ (exists u a,
       log (snd (Index.handleSuccess (env_of web None) Index.initial koffie
                   (start Index.initial))) = [u; a] /\
       feedback u = Some (Str "Gebruik 'graag' voor beleefdheid.")).
Proof.
  repeat split. intros (u & a & Hlog & Hfb).
  cbn in Hlog. injection Hlog as <- _. cbn in Hfb. discriminate.
Qed.

(** C5, amended. For a success response with user text, reply, a non-empty
    (truthy) feedback and a non-empty (truthy) audio: on the screen with
    corrections the appended User turn carries the feedback when the
    render's [liveFeedback] is true and [null] when it is false, the AI
    turn carries the reply, and [playAudio] is called with the audio right
    after the write; on the basic screen the User turn never has a
    feedback field, the rest being the same. *)
Theorem handleSuccess_feedback_gate env r data w user_text reply fb audio :
  is_success data = true ->
  get data "user_text" = Ok user_text ->
  get data "reply" = Ok reply ->
  get data "feedback" = Ok fb -> truthy fb = true ->
  get data "audio" = Ok audio -> truthy audio = true ->
  let home := snd (Home.handleSuccess env r data w) in
  let index := snd (Index.handleSuccess env r data w) in
  let ai_turn := {| sender := ai; text := reply; feedback := None;
                    showFeedback := None |} in
  (liveFeedback r = true ->
   log home = log w ++ [ {| sender := user; text := user_text;
                            feedback := Some fb; showFeedback := Some false |};
                         ai_turn ]) /\
  (liveFeedback r = false ->
   log home = log w ++ [ {| sender := user; text := user_text;
                            feedback := Some Null; showFeedback := Some false |};
                         ai_turn ]) /\
  (exists rest, trace home =
                trace w ++ SetMessages (log home) :: Sound_createAsync audio :: rest) /\
  log index = log w ++ [ {| sender := user; text := user_text;
                            feedback := None; showFeedback := None |};
                         ai_turn ] /\
  (exists rest, trace index =
                trace w ++ SetMessages (log index) :: Sound_createAsync audio :: rest).
Proof.
  intros Hs Hut Hrp Hfb Tfb Hau Tau.
  apply success_is_object in Hs as (fields & -> & Hs).
  cbn in Hut, Hrp, Hfb, Hau.
  injection Hut as Hut. injection Hrp as Hrp. injection Hfb as Hfb.
  injection Hau as Hau.
  rewrite (Home_handleSuccess_success env r fields w Hs).
  rewrite (Index_handleSuccess_success env r fields w Hs).
  cbn. rewrite Hut, Hrp, Hfb, Hau, Tfb, Tau. unfold log. cbn.
  repeat split.
  - intros ->. reflexivity.
  - intros ->. reflexivity.
  - eexists. reflexivity.
  - eexists. reflexivity.
Qed.

Lemma handleSuccess_feedback_gate_witness :
  log (snd (Home.handleSuccess (env_of native None) Home.initial koffie
              (start Home.initial)))
  = [ user_turn "Ik wil een koffie" (Str "Gebruik 'graag' voor beleefdheid.");
      ai_turn "Hier is uw koffie." ] /\
  log (snd (Index.handleSuccess (env_of native None) Home.initial koffie
              (start Home.initial)))
  = [ {| sender := user; text := Str "Ik wil een koffie"; feedback := None;
         showFeedback := None |};
      ai_turn "Hier is uw koffie." ].
Proof.
  destruct (handleSuccess_feedback_gate (env_of native None) Home.initial
              koffie (start Home.initial)
              (Str "Ik wil een koffie") (Str "Hier is uw koffie.")
              (Str "Gebruik 'graag' voor beleefdheid.")
              (Str "SGllciBpcyB1dyBrb2ZmaWUu")
              eq_refl eq_refl eq_refl eq_refl eq_refl eq_refl eq_refl)
    as (Hon & _ & _ & Hindex & _).
  split; [exact (Hon eq_refl) | exact Hindex].
Defined.

(** With Live Corrections off, the same response leaves [null]. *)
Example koffie_without_live_feedback :
  log (snd (Home.handleSuccess (env_of native None)
              (with_liveFeedback false Home.initial) koffie (start Home.initial)))
  = [ user_turn "Ik wil een koffie" Null; ai_turn "Hier is uw koffie." ].
Proof. reflexivity. Qed.

(** Any response, success or not, leaves the turns already in the log
    where they are. *)
Lemma handleSuccess_extends_log env r data w :
  (exists new, log (snd (Home.handleSuccess env r data w)) = log w ++ new) /\
  (exists new, log (snd (Index.handleSuccess env r data w)) = log w ++ new).
Proof.
  destruct (is_success data) eqn:Hs.
  - apply success_is_object in Hs as (fields & -> & Hs).
    rewrite (Home_handleSuccess_success env r fields w Hs).
    rewrite (Index_handleSuccess_success env r fields w Hs).
    split; eexists; reflexivity.
  - unfold is_success in Hs.
    destruct data; cbn in Hs; run; rewrite ?Hs; cbn;
      split; exists []; now rewrite app_nil_r.
Qed.

Lemma switch_all_frame (bs : list bool) (w : World) :
  log (switch_all bs w) = log w /\
  trace (switch_all bs w) = trace w /\
  recordingRef (switch_all bs w) = recordingRef w /\
  isRecording (hooks (switch_all bs w)) = isRecording (hooks w) /\
  isLoading (hooks (switch_all bs w)) = isLoading (hooks w) /\
  context (hooks (switch_all bs w)) = context (hooks w).
Proof.
  revert w. induction bs as [| b bs IH]; intros w; [now cbn |].
  cbn [switch_all fold_left]. fold (switch_all bs (after (setLiveFeedback b) w)).
  destruct (IH (after (setLiveFeedback b) w)) as (-> & -> & -> & -> & -> & ->).
  now cbn.
Qed.

(** C10. However often the Live Corrections switch is moved, the log is
    the same list afterwards (every turn keeps its text and feedback) and
    nothing else is done; the flag only reaches a turn through the
    [handleSuccess] that appends it, which keeps the earlier turns as a
    prefix of the log. *)
Theorem liveFeedback_switch_preserves_log (bs : list bool) (w : World) :
  log (switch_all bs w) = log w /\
  trace (switch_all bs w) = trace w /\
  (forall env r data,
      (exists new,
          log (snd (Home.handleSuccess env r data (switch_all bs w)))
          = log w ++ new) /\
      (exists new,
          log (snd (Index.handleSuccess env r data (switch_all bs w)))
          = log w ++ new)).
Proof.
  destruct (switch_all_frame bs w) as (Hlog & Htr & _).
  repeat split; try assumption; rewrite <- Hlog;
    apply (handleSuccess_extends_log env r data (switch_all bs w)).
Qed.

(** Handled success responses add two turns each. *)
Lemma handle_all_success_length env (ds : list (Hooks * Value)) (w : World) :
  Forall (fun d => is_success (snd d) = true) ds ->
  length (log (handle_all (Home.handleSuccess env) ds w))
  = (length (log w) + 2 * length ds)%nat /\
  length (log (handle_all (Index.handleSuccess env) ds w))
  = (length (log w) + 2 * length ds)%nat.
Proof.
  intros Hall. revert w.
  induction Hall as [| [r data] ds Hd _ IH]; intros w; cbn [handle_all fold_left].
  - cbn. split; lia.
  - cbn [fst snd] in *.
    fold (handle_all (Home.handleSuccess env) ds
            (after (Home.handleSuccess env r data) w)).
    fold (handle_all (Index.handleSuccess env) ds
            (after (Index.handleSuccess env r data) w)).
    destruct (IH (after (Home.handleSuccess env r data) w)) as [-> _].
    destruct (IH (after (Index.handleSuccess env r data) w)) as [_ ->].
    apply success_is_object in Hd as (fields & -> & Hs).
    unfold after.
    rewrite (Home_handleSuccess_success env r fields w Hs).
    rewrite (Index_handleSuccess_success env r fields w Hs).
    unfold log. cbn. rewrite !length_app. cbn. split; lia.
Qed.

(** C1, as stated, fails on the basic screen: its pills only set the
    context, so the exchange is still in the log after the second pill. *)
Lemma Index_pill_keeps_log :
  let env := env_of web None in
  length (log (after (Index.pill_onPress doctor)
                 (handle_all (Index.handleSuccess env) [(Index.initial, koffie)]
                    (after (Index.pill_onPress waiter) (start Index.initial)))))
  <> 0%nat.
Proof. cbn. discriminate. Qed.

(** C1, amended. On the screen with role descriptions, pressing a context
    pill stores the empty list in the same handler call, whatever was
    handled since the previous pill and whether or not the pill is the
    active one: the log has length 0. On the basic screen a pill only sets
    [context] and the log stays as it is. *)
Theorem pill_onPress_clears_log_on_Home env (x y : ScenarioId)
    (ds : list (Hooks * Value)) (w : World) :
  let before := handle_all (Home.handleSuccess env) ds
                  (after (Home.pill_onPress x) w) in
  fst (Home.pill_onPress y before) = Ok tt /\
  length (log (after (Home.pill_onPress y) before)) = 0%nat /\
  writes (trace (after (Home.pill_onPress y) before))
  = writes (trace before) ++ [[]] /\
  context (hooks (after (Home.pill_onPress y) before)) = y /\
  userAiPairDescription (hooks (after (Home.pill_onPress y) before))
    = Home.user_ai_roles y /\
  (forall w', fst (Index.pill_onPress y w') = Ok tt /\
              log (after (Index.pill_onPress y) w') = log w' /\
              context (hooks (after (Index.pill_onPress y) w')) = y).
Proof.
  cbn. repeat split.
  fold (writes (trace (handle_all (Home.handleSuccess env) ds
                         (after (Home.pill_onPress x) w)))).
  rewrite writes_app. reflexivity.
Qed.

End Log_props.

Module Feedback_props.
Import Js Screen Session.
Local Open Scope list_scope.

Lemma array_get_in_range (l : list Message) (index : Z) (m : Message) :
  Home.array_get l index = Some m ->
  (0 <= index)%Z /\ l !! Z.to_nat index = Some m.
Proof.
  unfold Home.array_get. destruct (Z.leb_spec 0 index); [auto | discriminate].
Qed.

Lemma array_get_out_of_range (l : list Message) (index : Z) :
  out_of_range index l -> Home.array_get l index = None.
Proof.
  unfold Home.array_get, out_of_range. intros [Hneg | Hge].
  - destruct (Z.leb_spec 0 index); [lia | reflexivity].
  - destruct (Z.leb_spec 0 index); [| reflexivity].
    apply lookup_ge_None. lia.
Qed.

(** On an AI turn the updater returns the list it was given. *)
Lemma toggleFeedback_updater_ai (index : Z) (prev : list Message) (m : Message) :
  Home.array_get prev index = Some m -> sender m = ai ->
  Home.toggleFeedback_updater index prev = Ok prev.
Proof.
  intros Hget Hai. unfold Home.toggleFeedback_updater. now rewrite Hget, Hai.
Qed.

(** On a User turn the updater flips [showFeedback] of that turn and
    touches nothing else. *)
Lemma toggleFeedback_updater_user (index : Z) (prev : list Message) (m : Message) :
  Home.array_get prev index = Some m -> sender m = user ->
  exists next,
    Home.toggleFeedback_updater index prev = Ok next /\
    length next = length prev /\
    (forall j, j <> Z.to_nat index -> next !! j = prev !! j) /\
    next !! Z.to_nat index =
      Some {| sender := user; text := text m; feedback := feedback m;
              showFeedback := Some (negb (default false (showFeedback m))) |}.
Proof.
  intros Hget Huser. apply array_get_in_range in Hget as Hm. destruct Hm as [_ Hm].
  unfold Home.toggleFeedback_updater. rewrite Hget, Huser.
  eexists. split; [reflexivity |]. repeat split.
  - apply length_insert.
  - intros j Hj. now apply list_lookup_insert_ne.
  - apply list_lookup_insert_eq. now apply lookup_lt_Some in Hm.
Qed.

(** Out of range the updater throws instead of returning the list. *)
Lemma toggleFeedback_updater_out_of_range (index : Z) (prev : list Message) :
  out_of_range index prev ->
  exists e, Home.toggleFeedback_updater index prev = Throw e.
Proof.
  intros Hout. unfold Home.toggleFeedback_updater.
  rewrite (array_get_out_of_range _ _ Hout). eauto.
Qed.

(** C2, as stated, fails for an index out of range: the log has two
    turns and the index is 2. [updated[2]] is [undefined], so the updater
    throws on reading [.sender] instead of returning the list. The call of
    [toggleFeedback] returns, but the update is not a no-op: React rethrows
    while rendering. *)
Lemma toggleFeedback_out_of_range_not_noop :
  out_of_range 2 (log talked) /\
  Home.toggleFeedback_updater 2 (log talked) <> Ok (log talked) /\
  (exists e, Home.toggleFeedback_updater 2 (log talked) = Throw e) /\
  fst (Home.toggleFeedback 2 talked) = Ok tt /\
  (exists e, trace (snd (Home.toggleFeedback 2 talked)) = [React_render_throws e]).
Proof.
  split; [right; cbn; lia |]. split; [discriminate |].
  split; [eexists; reflexivity |]. split; [reflexivity |].
  eexists. reflexivity.
Qed.

(** In range, on the same log: index 1 is the AI turn (unchanged list),
    index 0 is the User turn (flag flipped). *)
Example toggleFeedback_in_range :
  Home.toggleFeedback_updater 1 (log talked) = Ok (log talked) /\
  Home.toggleFeedback_updater 0 (log talked)
  = Ok [ {| sender := user; text := Str "Ik wil een koffie";
            feedback := Some (Str "Gebruik 'graag'."); showFeedback := Some true |};
         ai_turn "Hier is uw koffie." ].
Proof. split; reflexivity. Qed.

End Feedback_props.

Module Upload_props.
Import Js Screen Session.
Local Open Scope list_scope.

Ltac run_upload :=
  unfold Home.uploadAudio, Index.uploadAudio, Screen.uploadAudio,
    setIsLoading, try_catch, try_finally, bind, lift, ret, throw, emit,
    modify, after, log;
  cbn.

(** The native branch does what C3 says: on a rejected upload, a status
    other than 200 or an unparseable body, nothing is appended, the
    "Connection Error" alert is raised and [isLoading] ends false. *)
Lemma native_transport_failure env handleSuccess r uri w :
  Platform_OS env = native ->
  transport_failure (FileSystem_uploadAsync env) ->
  let out := Screen.uploadAudio env handleSuccess r uri w in
  fst out = Ok tt /\
  log (snd out) = log w /\
  isLoading (hooks (snd out)) = false /\
  exists error,
    trace (snd out) =
      trace w ++ [ POST_chat_audio native uri (context r) (liveFeedback r);
                   console_error "Upload Failed" error;
                   Alert_alert "Connection Error" "Could not reach the AI server." ].
Proof.
  intros Hos Hfail. run_upload. rewrite Hos. cbn.
  destruct (FileSystem_uploadAsync env) as [res |]; cbn in *.
  - destruct (Z.eqb_spec (status res) 200) as [H200 | Hne]; cbn.
    + destruct Hfail as [Hne | Hbody]; [contradiction |].
      rewrite Hbody. cbn. rewrite <- !app_assoc. eauto 10.
    + rewrite <- !app_assoc. eauto 10.
  - rewrite <- !app_assoc. eauto 10.
Qed.

(** On the web, a rejected request or an unparseable body is handled the
    same way. *)
Lemma web_network_or_parse_failure env handleSuccess r uri w :
  Platform_OS env = web -> fetch_uri_blob env = true ->
  (fetch_chat_audio env = None \/
   exists res, fetch_chat_audio env = Some res /\ body res = None) ->
  let out := Screen.uploadAudio env handleSuccess r uri w in
  fst out = Ok tt /\
  log (snd out) = log w /\
  isLoading (hooks (snd out)) = false /\
  alerted (trace (snd out)).
Proof.
  intros Hos Hblob Hfail. run_upload. rewrite Hos, Hblob. cbn.
  destruct Hfail as [-> | (res & -> & ->)]; cbn;
    (repeat split; [];
     exists "Connection Error", "Could not reach the AI server.";
     rewrite !in_app_iff; cbn; auto).
Qed.

(** Whatever the status code [s] is, the web branch hands a body that
    parses to a success object to [handleSuccess]: two turns are appended
    and no notice is raised. *)
Lemma web_success_body_any_status (s : Z) :
  let env := env_of web (Some {| status := s; body := Some koffie |}) in
  let w := start (with_isLoading true Home.initial) in
  let home := Home.uploadAudio env Home.initial "blob:rec" w in
  let index := Index.uploadAudio env Index.initial "blob:rec" w in
  length (log (snd home)) = 2%nat /\ ~ alerted (trace (snd home)) /\
  length (log (snd index)) = 2%nat /\ ~ alerted (trace (snd index)).
Proof.
  cbn. repeat split.
  - intros (t & m & Hin). cbn in Hin. intuition discriminate.
  - intros (t & m & Hin). cbn in Hin. intuition discriminate.
Qed.

(** C3, at the failing input: on the web the service answers with status
    500 and a body that parses to a success object. The web branch never
    looks at [upload.status]: the exchange is handled as a success, two
    turns are appended and no notice is raised. The native branch, given
    the same response, appends nothing and alerts. *)
Theorem web_upload_ignores_status :
  let env := env_of web (Some {| status := 500; body := Some koffie |}) in
  let w := start (with_isLoading true Home.initial) in
  let home := Home.uploadAudio env Home.initial "blob:rec" w in
  let index := Index.uploadAudio env Index.initial "blob:rec" w in
  fst home = Ok tt /\
  log (snd home) =
    [ user_turn "Ik wil een koffie" (Str "Gebruik 'graag' voor beleefdheid.");
      ai_turn "Hier is uw koffie." ] /\
  trace (snd home) =
    [ POST_chat_audio web "blob:rec" waiter true;
      SetMessages (log (snd home));
      Sound_createAsync (Str "SGllciBpcyB1dyBrb2ZmaWUu");
      Sound_playAsync ] /\
  ~ alerted (trace (snd home)) /\
  isLoading (hooks (snd home)) = false /\
  fst index = Ok tt /\
  length (log (snd index)) = 2%nat /\
  ~ alerted (trace (snd index)).
Proof.
  cbn. repeat split.
  - intros (t & m & Hin). cbn in Hin. intuition discriminate.
  - intros (t & m & Hin). cbn in Hin. intuition discriminate.
Qed.

(** The same response on the native branch, with status 500. *)
Example native_upload_rejects_500 :
  let env := env_of native (Some {| status := 500; body := Some koffie |}) in
  let w := start (with_isLoading true Home.initial) in
  let home := Home.uploadAudio env Home.initial "file:///rec.m4a" w in
  log (snd home) = [] /\ alerted (trace (snd home)) /\
  isLoading (hooks (snd home)) = false.
Proof.
  cbn. repeat split.
  exists "Connection Error", "Could not reach the AI server.". cbn. auto.
Qed.

End Upload_props.

Module Reset_props.
Import Js Screen Session.
Local Open Scope list_scope.

Ltac run_reset :=
  unfold Home.resetHistory, setDisplayRoles, setMessages, try_catch, bind,
    ret, throw, emit, modify, after, log;
  cbn.

(** Whenever the request resolves, with 204 or with any other status, the
    log is emptied, the roles are shown again, nothing is alerted and the
    recording flags are left alone. *)
Lemma resetHistory_resolved env (s : Z) (w : World) :
  fetch_reset_context env = Some s ->
  let out := Home.resetHistory env w in
  fst out = Ok tt /\
  log (snd out) = [] /\
  displayRoles (hooks (snd out)) = true /\
  isRecording (hooks (snd out)) = isRecording (hooks w) /\
  isLoading (hooks (snd out)) = isLoading (hooks w) /\
  trace (snd out) =
    trace w ++ PUT_reset_context ::
      (if negb (Z.eqb s 204)
       then [console_log "Could not reset history." None] else [])
      ++ [SetMessages []].
Proof.
  intros Hs. run_reset. rewrite Hs.
  destruct (Z.eqb s 204); cbn; rewrite <- ?app_assoc; cbn; auto 10.
Qed.

(** C4, at the failing input: the request is rejected (network failure)
    while the log holds an exchange. [setMessages([])] sits inside the
    [try], after the [await], so the [catch] skips it: the log keeps its
    two turns, and the roles stay hidden. With a non-204 status the same
    handler does clear the log ([resetHistory_resolved]). *)
Theorem resetHistory_rejected_keeps_log :
  let out := Home.resetHistory (env_reset None) talked in
  fst out = Ok tt /\
  log (snd out) = log talked /\
  length (log (snd out)) = 2%nat /\
  displayRoles (hooks (snd out)) = false /\
  trace (snd out) = [PUT_reset_context; console_log "" (Some (Rejected "fetch"))].
Proof. cbn. repeat split. Qed.

(** A 500 from the service, on the same log. *)
Example resetHistory_500_clears_log :
  let out := Home.resetHistory (env_reset (Some 500%Z)) talked in
  log (snd out) = [] /\ idle (hooks (snd out)) /\
  trace (snd out) =
    [PUT_reset_context; console_log "Could not reset history." None;
     SetMessages []].
Proof. cbn. repeat split. Qed.

End Reset_props.


(** * Further properties of the handlers *)

Module Handler_props.
Import Js Screen Session View Machine.
Local Open Scope list_scope.

Ltac run_all :=
  unfold Home.stopRecording, Index.stopRecording, Screen.stopRecording,
    Home.uploadAudio, Index.uploadAudio, Screen.uploadAudio,
    Screen.startRecording, Home.resetHistory, Home.onRefresh,
    Home.pill_onPress, Home.toggleFeedback,
    Home.handleSuccess, Index.handleSuccess, Home.feedback_of,
    Index.handleSuccess_updater, setMessages_with, setMessages, playAudio,
    setIsLoading, setIsRecording, setDisplayRoles, setRefreshing,
    setContext, setUserAiPairDescription, setLiveFeedback,
    get_recordingRef, set_recordingRef,
    try_catch, try_finally, bind, lift, ret, throw, emit, modify, after, log;
  cbn.

Ltac explode w :=
  let h := fresh "h" in
  destruct w as [h ? ?]; destruct h.

Lemma posts_app (t1 t2 : list Event) : posts (t1 ++ t2) = posts t1 ++ posts t2.
Proof. unfold posts. apply List.filter_app. Qed.

Lemma not_success_status (data : Value) :
  is_success data = false -> data <> Null -> data <> Undefined ->
  exists st, get data "status" = Ok st /\ strict_eq_str st "success" = false.
Proof.
  unfold is_success. destruct data; cbn; intros Hs Hn Hu;
    try contradiction; eauto.
Qed.

Lemma not_success_alerts env r data w :
  is_success data = false -> data <> Null -> data <> Undefined ->
  let ai_error := Alert_alert "AI Error" "Could not understand audio." in
  Home.handleSuccess env r data w =
  (Ok tt, {| hooks := hooks w; recordingRef := recordingRef w;
             trace := trace w ++ [ai_error] |}) /\
  Index.handleSuccess env r data w =
  (Ok tt, {| hooks := hooks w; recordingRef := recordingRef w;
             trace := trace w ++ [ai_error] |}).
Proof.
  intros Hs Hn Hu.
  destruct (not_success_status data Hs Hn Hu) as (st & Hget & Hst).
  run_all. rewrite Hget. cbn. rewrite Hst. split; reflexivity.
Qed.

(** X4. A parsed body that is not [null] and whose [status] is not
    ['success'] (an error object, a number, a string, an array) makes
    [handleSuccess] raise the "AI Error" alert and nothing else: no
    exception, the hooks and the recording handle as they were. *)
Theorem handleSuccess_not_success env r data w :
  is_success data = false -> data <> Null -> data <> Undefined ->
  let ai_error := Alert_alert "AI Error" "Could not understand audio." in
  Home.handleSuccess env r data w =
  (Ok tt, {| hooks := hooks w; recordingRef := recordingRef w;
             trace := trace w ++ [ai_error] |}) /\
  Index.handleSuccess env r data w =
  (Ok tt, {| hooks := hooks w; recordingRef := recordingRef w;
             trace := trace w ++ [ai_error] |}).
Proof. exact (not_success_alerts env r data w). Qed.

Lemma handleSuccess_not_success_witness :
  let data := Obj [("status", Str "error")] in
  let ai_error := Alert_alert "AI Error" "Could not understand audio." in
  Home.handleSuccess (env_of native None) Home.initial data talked =
  (Ok tt, {| hooks := hooks talked; recordingRef := recordingRef talked;
             trace := trace talked ++ [ai_error] |}) /\
  Index.handleSuccess (env_of native None) Home.initial data talked =
  (Ok tt, {| hooks := hooks talked; recordingRef := recordingRef talked;
             trace := trace talked ++ [ai_error] |}).
Proof.
  apply (handleSuccess_not_success (env_of native None) Home.initial
           (Obj [("status", Str "error")]) talked);
    [reflexivity | discriminate | discriminate].
Defined.

Lemma Value_null_dec (data : Value) :
  (data = Null \/ data = Undefined) \/ (data <> Null /\ data <> Undefined).
Proof. destruct data; (left; auto; fail) || (right; split; discriminate). Qed.

(** On [null] and [undefined] reading [.status] throws and nothing is done. *)
Lemma handleSuccess_null env r data w :
  data = Null \/ data = Undefined ->
  (exists e, Home.handleSuccess env r data w = (Throw e, w)) /\
  (exists e, Index.handleSuccess env r data w = (Throw e, w)).
Proof. intros [-> | ->]; run_all; eauto. Qed.

Lemma alternating_app_pair (ss : list Sender) :
  alternating ss = true -> alternating (ss ++ [user; ai]) = true.
Proof.
  remember (length ss) as n eqn:Hn. revert ss Hn.
  induction n as [n IH] using lt_wf_ind. intros ss Hn Hal.
  destruct ss as [| [] [| [] rest]]; try discriminate; [reflexivity |].
  cbn in *. apply (IH (length rest)); [lia | reflexivity | exact Hal].
Qed.

Lemma paired_exchange (l : list Message) (u a : Message) :
  paired l -> sender u = user -> sender a = ai -> paired (l ++ [u; a]).
Proof.
  unfold paired. intros Hl Hu Ha. rewrite map_app. cbn. rewrite Hu, Ha.
  now apply alternating_app_pair.
Qed.

Lemma Home_appends_only env : appends_only home_log (Home.handleSuccess env).
Proof.
  intros r data w. explode w. destruct (is_success data) eqn:Hs.
  - apply Log_props.success_is_object in Hs as Hobj.
    destruct Hobj as (fields & -> & Hst).
    rewrite (Log_props.Home_handleSuccess_success env r fields _ Hst).
    cbn. do 3 eexists. split; [reflexivity | split; [| split; [auto |]]].
    + destruct (truthy (assoc "audio" fields)), (Audio_Sound env); reflexivity.
    + intros [Hp Hsh]. split.
      * now apply paired_exchange.
      * apply Forall_app. split; [exact Hsh |].
        repeat constructor; cbn; eauto.
        destruct (liveFeedback r); cbn; eauto.
        destruct (truthy (assoc "feedback" fields)) eqn:Ht; eauto.
  - destruct (Value_null_dec data) as [Hnull | [Hn Hu]].
    + edestruct (handleSuccess_null env r data) as [[e ->] _]; [exact Hnull |].
      exists (Throw e), messages0, []. cbn.
      rewrite app_nil_r.
      split; [reflexivity | split; [reflexivity | split; [congruence | auto]]].
    + edestruct (not_success_alerts env r data) as [-> _]; eauto.
      cbn. do 3 eexists. split; [reflexivity | split; [reflexivity |]].
      split; [congruence | auto].
Qed.

Lemma Index_appends_only env : appends_only paired (Index.handleSuccess env).
Proof.
  intros r data w. explode w. destruct (is_success data) eqn:Hs.
  - apply Log_props.success_is_object in Hs as Hobj.
    destruct Hobj as (fields & -> & Hst).
    rewrite (Log_props.Index_handleSuccess_success env r fields _ Hst).
    cbn. do 3 eexists. split; [reflexivity | split; [| split; [auto |]]].
    + destruct (truthy (assoc "audio" fields)), (Audio_Sound env); reflexivity.
    + intros Hp. now apply paired_exchange.
  - destruct (Value_null_dec data) as [Hnull | [Hn Hu]].
    + edestruct (handleSuccess_null env r data) as [_ [e ->]]; [exact Hnull |].
      exists (Throw e), messages0, []. cbn.
      rewrite app_nil_r.
      split; [reflexivity | split; [reflexivity | split; [congruence | auto]]].
    + edestruct (not_success_alerts env r data) as [_ ->]; eauto.
      cbn. do 3 eexists. split; [reflexivity | split; [reflexivity |]].
      split; [congruence | auto].
Qed.

(** *** uploadAudio *)

Section Upload.
Variable Inv : list Message -> Prop.
Variable env : Env.
Variable hs : Hooks -> Value -> M unit.
Hypothesis hs_appends_only : appends_only Inv hs.

Ltac failed_upload msgs :=
  exists msgs; eexists; rewrite <- ?app_assoc; cbn;
  split; [reflexivity | split; [reflexivity | split; [congruence | auto]]].

Ltac handled_upload :=
  let res := fresh "res" in
  let msgs := fresh "msgs" in
  let added := fresh "added" in
  let Hp := fresh "Hp" in
  let Hc := fresh "Hc" in
  let Hinv := fresh "Hinv" in
  match goal with
  | |- context [hs ?r ?data _] =>
      edestruct (hs_appends_only r data)
        as (res & msgs & added & -> & Hp & Hc & Hinv)
  end;
  unfold posts in Hp; cbn in *; exists msgs; destruct res as [[] | ?]; cbn;
  rewrite <- ?app_assoc; cbn;
  eexists; (split; [reflexivity |]); cbn;
  rewrite ?List.filter_app, ?Hp; cbn;
  (split; [reflexivity |]);
  (split; [| exact Hinv]);
  let Hne := fresh "Hne" in
  intros Hne; destruct (Hc Hne) as [? ?];
  first
    [ discriminate
    | do 2 eexists; split; [reflexivity |]; cbn; split; [reflexivity |];
      split; [assumption |]; intros; first [discriminate | reflexivity] ].

Lemma uploadAudio_shape (r : Hooks) (uri : string) (w : World) :
  exists msgs added,
    Screen.uploadAudio env hs r uri w =
    (Ok tt, {| hooks := with_isLoading false (with_messages msgs (hooks w));
               recordingRef := recordingRef w;
               trace := trace w ++ added |}) /\
    posts added =
      match Platform_OS env with
      | web => if fetch_uri_blob env
               then [POST_chat_audio web uri (context r) (liveFeedback r)]
               else []
      | native => [POST_chat_audio native uri (context r) (liveFeedback r)]
      end /\
    (msgs <> messages (hooks w) ->
     exists res data,
       response_of env = Some res /\ body res = Some data /\
       is_success data = true /\
       (Platform_OS env = native -> status res = 200%Z)) /\
    (Inv (messages (hooks w)) -> Inv msgs).
Proof.
  explode w. unfold response_of, posts in *. run_all.
  destruct (Platform_OS env); cbn.
  - destruct (fetch_uri_blob env); cbn; [| failed_upload messages0].
    destruct (fetch_chat_audio env) as [[st [data |]] |]; cbn;
      [handled_upload | failed_upload messages0 | failed_upload messages0].
  - destruct (FileSystem_uploadAsync env) as [[st [data |]] |]; cbn;
      [| destruct (Z.eqb st 200); cbn; failed_upload messages0
       | failed_upload messages0].
    destruct (Z.eqb_spec st 200) as [-> | Hne]; cbn;
      [handled_upload | failed_upload messages0].
Qed.

End Upload.

(** X1. Whatever the platform, the service and [handleSuccess] do,
    [uploadAudio] does not throw and leaves [isLoading] false: the
    [catch] takes every exception and the [finally] runs last. *)
Theorem uploadAudio_settles env (hs : Hooks -> Value -> M unit) r uri w :
  let out := Screen.uploadAudio env hs r uri w in
  fst out = Ok tt /\ isLoading (hooks (snd out)) = false.
Proof.
  unfold Screen.uploadAudio, setIsLoading, try_catch, try_finally, bind,
    ret, throw, emit, modify.
  cbn.
  destruct (Platform_OS env); cbn.
  - destruct (fetch_uri_blob env); cbn; [| auto].
    destruct (fetch_chat_audio env) as [[st [data |]] |]; cbn; auto.
    destruct (hs r data _) as [[[] | e] w']; cbn; auto.
  - destruct (FileSystem_uploadAsync env) as [[st [data |]] |]; cbn; auto;
      destruct (Z.eqb st 200); cbn; auto.
    destruct (hs r data _) as [[[] | e] w']; cbn; auto.
Qed.

(** X2. One call of [uploadAudio] issues one request for /chat-audio,
    carrying the context and the Live Corrections flag of the render that
    started it, and never a second one; on the web no request is issued
    when the recorded blob cannot be read back. *)
Theorem uploadAudio_one_request env r uri w :
  let request :=
    match Platform_OS env with
    | web => if fetch_uri_blob env
             then [POST_chat_audio web uri (context r) (liveFeedback r)]
             else []
    | native => [POST_chat_audio native uri (context r) (liveFeedback r)]
    end in
  posts (trace (snd (Home.uploadAudio env r uri w))) = posts (trace w) ++ request /\
  posts (trace (snd (Index.uploadAudio env r uri w))) = posts (trace w) ++ request.
Proof.
  cbn zeta. unfold Home.uploadAudio, Index.uploadAudio. split.
  - destruct (uploadAudio_shape _ env _ (Home_appends_only env) r uri w)
      as (msgs & added & -> & Hp & _ & _).
    cbn. now rewrite posts_app, Hp.
  - destruct (uploadAudio_shape _ env _ (Index_appends_only env) r uri w)
      as (msgs & added & -> & Hp & _ & _).
    cbn. now rewrite posts_app, Hp.
Qed.

(** X3. [uploadAudio] changes the log only when the service answered, the
    body parsed and its [status] is ['success'], and, on the native
    branch, the HTTP status was 200. *)
Theorem upload_changes_log_only_on_success env r uri w :
  log (snd (Home.uploadAudio env r uri w)) <> log w \/
  log (snd (Index.uploadAudio env r uri w)) <> log w ->
  exists res data,
    response_of env = Some res /\ body res = Some data /\
    is_success data = true /\
    (Platform_OS env = native -> status res = 200%Z).
Proof.
  unfold Home.uploadAudio, Index.uploadAudio. intros [Hne | Hne].
  - destruct (uploadAudio_shape _ env _ (Home_appends_only env) r uri w)
      as (msgs & added & Heq & _ & Hc & _).
    rewrite Heq in Hne. apply Hc. exact Hne.
  - destruct (uploadAudio_shape _ env _ (Index_appends_only env) r uri w)
      as (msgs & added & Heq & _ & Hc & _).
    rewrite Heq in Hne. apply Hc. exact Hne.
Qed.

Lemma upload_changes_log_only_on_success_witness :
  exists res data,
    response_of (env_of native (Some {| status := 200; body := Some koffie |}))
    = Some res /\ body res = Some data /\
    is_success data = true /\
    (Platform_OS (env_of native (Some {| status := 200; body := Some koffie |}))
     = native -> status res = 200%Z).
Proof.
  apply (upload_changes_log_only_on_success
           (env_of native (Some {| status := 200; body := Some koffie |}))
           Home.initial "file:///rec.m4a" (start Home.initial)).
  left. cbn. discriminate.
Defined.

(** X5. A body that parses to [null] is valid JSON, but reading
    [data.status] throws: the exchange ends in the [catch] of [uploadAudio],
    so the user gets the "Connection Error" notice (not "AI Error"), a
    TypeError goes to the console with "Upload Failed" and the log is
    unchanged. *)
Theorem upload_null_body_is_connection_error env r uri w res :
  response_of env = Some res -> body res = Some Null ->
  (Platform_OS env = native -> status res = 200%Z) ->
  let home := snd (Home.uploadAudio env r uri w) in
  let index := snd (Index.uploadAudio env r uri w) in
  exists message,
    let reported :=
      [ POST_chat_audio (Platform_OS env) uri (context r) (liveFeedback r);
        console_error "Upload Failed" (TypeError message);
        Alert_alert "Connection Error" "Could not reach the AI server." ] in
    log home = log w /\ trace home = trace w ++ reported /\
    log index = log w /\ trace index = trace w ++ reported.
Proof.
  unfold response_of. intros Hres Hbody Hstatus. run_all.
  destruct (Platform_OS env); cbn.
  - destruct (fetch_uri_blob env); [| discriminate].
    rewrite Hres. cbn. rewrite Hbody. cbn. rewrite <- !app_assoc. cbn.
    eexists. repeat split.
  - rewrite Hres. cbn. rewrite (Hstatus eq_refl). cbn. rewrite Hbody. cbn.
    rewrite <- !app_assoc. cbn. eexists. repeat split.
Qed.

Lemma upload_null_body_is_connection_error_witness :
  let env := env_of web (Some {| status := 200; body := Some Null |}) in
  let home := snd (Home.uploadAudio env Home.initial "blob:rec" talked) in
  let index := snd (Index.uploadAudio env Home.initial "blob:rec" talked) in
  exists message,
    let reported :=
      [ POST_chat_audio web "blob:rec" waiter true;
        console_error "Upload Failed" (TypeError message);
        Alert_alert "Connection Error" "Could not reach the AI server." ] in
    log home = log talked /\ trace home = trace talked ++ reported /\
    log index = log talked /\ trace index = trace talked ++ reported.
Proof.
  apply (upload_null_body_is_connection_error
           (env_of web (Some {| status := 200; body := Some Null |}))
           Home.initial "blob:rec" talked {| status := 200; body := Some Null |});
    [reflexivity | reflexivity | discriminate].
Defined.

(** X6. Whether the reply can be played or not makes no difference to the
    conversation: [handleSuccess] gives the same result and the same hooks
    and recording handle, and raises no alert of its own, in two
    environments that differ in anything at all (the sound system is the
    only part of the environment it touches). *)
Theorem playback_failure_is_invisible env env' r data w :
  let home := Home.handleSuccess env r data w in
  let home' := Home.handleSuccess env' r data w in
  let index := Index.handleSuccess env r data w in
  let index' := Index.handleSuccess env' r data w in
  fst home = fst home' /\ hooks (snd home) = hooks (snd home') /\
  recordingRef (snd home) = recordingRef (snd home') /\
  fst index = fst index' /\ hooks (snd index) = hooks (snd index') /\
  recordingRef (snd index) = recordingRef (snd index') /\
  (forall t m, In (Alert_alert t m) (trace (snd home)) <->
               In (Alert_alert t m) (trace (snd home'))) /\
  (forall t m, In (Alert_alert t m) (trace (snd index)) <->
               In (Alert_alert t m) (trace (snd index'))).
Proof.
  cbn zeta. destruct (is_success data) eqn:Hs.
  - apply Log_props.success_is_object in Hs as (fields & -> & Hst).
    rewrite !(Log_props.Home_handleSuccess_success _ r fields w Hst).
    rewrite !(Log_props.Index_handleSuccess_success _ r fields w Hst).
    cbn. repeat split; intros Hin;
      rewrite in_app_iff in *; cbn in *;
      destruct (truthy (assoc "audio" fields)), (Audio_Sound env),
        (Audio_Sound env'); cbn in *;
      intuition discriminate.
  - destruct (Value_null_dec data) as [Hnull | [Hn Hu]].
    + destruct Hnull as [-> | ->]; run_all; repeat split; auto.
    + destruct (not_success_alerts env r data w Hs Hn Hu) as [-> ->].
      destruct (not_success_alerts env' r data w Hs Hn Hu) as [-> ->].
      cbn. repeat split; auto.
Qed.

(** *** stopRecording and startRecording *)

Section Stop.
Variable Inv : list Message -> Prop.
Variable env : Env.
Variable hs : Hooks -> Value -> M unit.
Hypothesis hs_appends_only : appends_only Inv hs.

Ltac quiet_stop :=
  repeat split; try congruence;
  try (intros [H | H]; [now cbn in H | congruence]);
  try (intros; simplify_eq/=; reflexivity); auto.

Lemma stopRecording_shape (r : Hooks) (w : World) :
  exists msgs added,
    Screen.stopRecording env hs r w =
    (Ok tt, {| hooks := with_isLoading false
                          (with_isRecording false (with_messages msgs (hooks w)));
               recordingRef :=
                 match recordingRef w with
                 | Some rec => if stopAndUnloadAsync rec then None else Some rec
                 | None => None
                 end;
               trace := trace w ++ added |}) /\
    (posts added <> [] \/ msgs <> messages (hooks w) ->
     exists rec uri,
       recordingRef w = Some rec /\ stopAndUnloadAsync rec = true /\
       getURI rec = Some uri /\ uri <> "" /\
       posts added =
         match Platform_OS env with
         | web => if fetch_uri_blob env
                  then [POST_chat_audio web uri (context r) (liveFeedback r)]
                  else []
         | native => [POST_chat_audio native uri (context r) (liveFeedback r)]
         end) /\
    (msgs <> messages (hooks w) ->
     exists res data,
       response_of env = Some res /\ body res = Some data /\
       is_success data = true /\
       (Platform_OS env = native -> status res = 200%Z)) /\
    (forall rec, recordingRef w = Some rec -> stopAndUnloadAsync rec = false ->
                 msgs = messages (hooks w) /\
                 added = [StopAndUnload;
                          console_error "Stop Error:" (Rejected "stopAndUnloadAsync")]) /\
    (Inv (messages (hooks w)) -> Inv msgs).
Proof.
  explode w.
  unfold Screen.stopRecording, setIsLoading, setIsRecording, get_recordingRef,
    set_recordingRef, try_catch, bind, ret, throw, emit, modify.
  cbn.
  destruct recordingRef0 as [[stop_ok uri] |]; cbn.
  - destruct stop_ok; cbn.
    + destruct uri as [uri |]; cbn.
      * destruct (String.eqb_spec uri "") as [-> | Hne]; cbn.
        -- exists messages0, [StopAndUnload]. quiet_stop.
        -- edestruct (uploadAudio_shape Inv env hs hs_appends_only r uri)
             as (msgs & added & -> & Hp & Hc & Hinv).
           cbn in *. exists msgs, (StopAndUnload :: added).
           rewrite <- app_assoc. cbn. split; [reflexivity |].
           split; [| split; [exact Hc | split; [| exact Hinv]]].
           ++ intros _.
              exists {| stopAndUnloadAsync := true; getURI := Some uri |}, uri.
              repeat split; auto.
           ++ intros rec H H0. simplify_eq/=.
      * exists messages0, [StopAndUnload]. quiet_stop.
    + exists messages0. eexists. rewrite <- !app_assoc. cbn.
      split; [reflexivity |]. quiet_stop.
  - exists messages0, []. rewrite app_nil_r. quiet_stop.
Qed.

End Stop.

(** X8. [stopRecording] always runs to the end without throwing and
    leaves the controller Idle ([isRecording] and [isLoading] both false),
    whatever the recording, the platform and the service do. *)
Theorem stopRecording_settles env r w :
  let home := Home.stopRecording env r w in
  let index := Index.stopRecording env r w in
  fst home = Ok tt /\ idle (hooks (snd home)) /\
  fst index = Ok tt /\ idle (hooks (snd index)).
Proof.
  cbn zeta. unfold Home.stopRecording, Index.stopRecording, idle.
  destruct (stopRecording_shape _ env _ (Home_appends_only env) r w)
    as (msgs & added & -> & _).
  destruct (stopRecording_shape _ env _ (Index_appends_only env) r w)
    as (msgs' & added' & -> & _).
  cbn. auto.
Qed.

(** X9. [stopRecording] sends a request, or changes the log, only if there
    was a recording, [stopAndUnloadAsync] resolved and [getURI] gave a
    non-empty string; the request is then the only one and is for that
    URI. *)
Theorem stopRecording_uploads_only_a_capture env r w :
  posts (trace (snd (Home.stopRecording env r w))) <> posts (trace w) \/
  log (snd (Home.stopRecording env r w)) <> log w ->
  exists rec uri,
    recordingRef w = Some rec /\ stopAndUnloadAsync rec = true /\
    getURI rec = Some uri /\ uri <> "" /\
    posts (trace (snd (Home.stopRecording env r w))) =
    posts (trace w) ++
      match Platform_OS env with
      | web => if fetch_uri_blob env
               then [POST_chat_audio web uri (context r) (liveFeedback r)]
               else []
      | native => [POST_chat_audio native uri (context r) (liveFeedback r)]
      end.
Proof.
  unfold Home.stopRecording.
  destruct (stopRecording_shape _ env _ (Home_appends_only env) r w)
    as (msgs & added & -> & Hup & _).
  unfold log. cbn. rewrite posts_app. intros Hch.
  destruct Hup as (rec & uri & Href & Hstop & Huri & Hne & Hposts).
  - destruct Hch as [Hch | Hch]; [left | right; exact Hch].
    intros Hnil. apply Hch. rewrite Hnil. now rewrite app_nil_r.
  - exists rec, uri. rewrite Hposts. auto.
Qed.

Lemma stopRecording_uploads_only_a_capture_witness :
  exists rec uri,
    Some a_recording = Some rec /\ stopAndUnloadAsync rec = true /\
    getURI rec = Some uri /\ uri <> "" /\
    posts (trace (snd (Home.stopRecording (env_of native None) Home.initial
                         {| hooks := with_isRecording true Home.initial;
                            recordingRef := Some a_recording; trace := [] |}))) =
    [POST_chat_audio native uri waiter true].
Proof.
  apply (stopRecording_uploads_only_a_capture (env_of native None) Home.initial
           {| hooks := with_isRecording true Home.initial;
              recordingRef := Some a_recording; trace := [] |}).
  left. cbn. discriminate.
Defined.

(** X10. When [stopAndUnloadAsync] rejects, the failure only reaches the
    console: no alert is raised, nothing is uploaded, the log is unchanged,
    the controller is Idle, and the handle stays in [recordingRef]. *)
Theorem stopRecording_failed_stop_is_silent env r w rec :
  recordingRef w = Some rec -> stopAndUnloadAsync rec = false ->
  let home := snd (Home.stopRecording env r w) in
  let index := snd (Index.stopRecording env r w) in
  let logged := [StopAndUnload;
                 console_error "Stop Error:" (Rejected "stopAndUnloadAsync")] in
  trace home = trace w ++ logged /\ log home = log w /\
  idle (hooks home) /\ recordingRef home = Some rec /\
  trace index = trace w ++ logged /\ log index = log w /\
  idle (hooks index) /\ recordingRef index = Some rec.
Proof.
  intros Href Hstop. cbn zeta. unfold Home.stopRecording, Index.stopRecording.
  destruct (stopRecording_shape _ env _ (Home_appends_only env) r w)
    as (msgs & added & -> & _ & _ & Hfail & _).
  destruct (stopRecording_shape _ env _ (Index_appends_only env) r w)
    as (msgs' & added' & -> & _ & _ & Hfail' & _).
  destruct (Hfail rec Href Hstop) as [-> ->].
  destruct (Hfail' rec Href Hstop) as [-> ->].
  unfold idle, log. cbn. rewrite Href, Hstop. repeat split.
Qed.

Lemma stopRecording_failed_stop_is_silent_witness :
  let rec := {| stopAndUnloadAsync := false; getURI := None |} in
  let w := {| hooks := with_isRecording true Home.initial;
              recordingRef := Some rec; trace := [] |} in
  let home := snd (Home.stopRecording (env_of native None) Home.initial w) in
  let index := snd (Index.stopRecording (env_of native None) Home.initial w) in
  let logged := [StopAndUnload;
                 console_error "Stop Error:" (Rejected "stopAndUnloadAsync")] in
  trace home = trace w ++ logged /\ log home = log w /\
  idle (hooks home) /\ recordingRef home = Some rec /\
  trace index = trace w ++ logged /\ log index = log w /\
  idle (hooks index) /\ recordingRef index = Some rec.
Proof.
  apply (stopRecording_failed_stop_is_silent (env_of native None) Home.initial
           {| hooks := with_isRecording true Home.initial;
              recordingRef := Some {| stopAndUnloadAsync := false; getURI := None |};
              trace := [] |}
           {| stopAndUnloadAsync := false; getURI := None |});
    reflexivity.
Defined.

(** X7. [startRecording] never throws and never touches the log or
    [isLoading]. It leaves [isRecording] true with the new handle in
    [recordingRef] exactly when both expo-av calls resolve; when either
    rejects, the hooks and the handle are as before and the user gets the
    "Could not start microphone." alert. *)
Theorem startRecording_outcome env w :
  let out := Screen.startRecording env w in
  fst out = Ok tt /\ log (snd out) = log w /\
  isLoading (hooks (snd out)) = isLoading (hooks w) /\
  match Audio_setAudioModeAsync env, Audio_Recording_createAsync env with
  | true, Some rec =>
      isRecording (hooks (snd out)) = true /\ recordingRef (snd out) = Some rec /\
      ~ alerted (skipn (length (trace w)) (trace (snd out)))
  | _, _ =>
      hooks (snd out) = hooks w /\ recordingRef (snd out) = recordingRef w /\
      In (Alert_alert "Error" "Could not start microphone.") (trace (snd out))
  end.
Proof.
  explode w. unfold Screen.startRecording, setIsRecording, set_recordingRef,
    try_catch, bind, ret, throw, emit, modify.
  cbn.
  destruct (Audio_setAudioModeAsync env); cbn.
  - destruct (Audio_Recording_createAsync env) as [rec |]; cbn.
    + repeat split. rewrite drop_app_length. intros (t & m & [H | []]).
      discriminate.
    + repeat split. rewrite !in_app_iff. cbn. auto.
  - repeat split. rewrite !in_app_iff. cbn. auto.
Qed.

(** *** toggleFeedback and the correction buttons *)

Lemma array_get_of_nat (l : list Message) (i : nat) :
  Home.array_get l (Z.of_nat i) = l !! i.
Proof.
  unfold Home.array_get. destruct (Z.leb_spec 0 (Z.of_nat i)); [| lia].
  now rewrite Nat2Z.id.
Qed.

Lemma correction_buttons_spec (l : list Message) (index : Z) (label : string) :
  In (index, label) (correction_buttons l) <->
  exists i m, index = Z.of_nat i /\ l !! i = Some m /\
              correction_button m = Some label.
Proof.
  unfold correction_buttons. rewrite <- list_elem_of_In, list_elem_of_omap.
  split.
  - intros ([i m] & Hin & Hbtn). apply elem_of_lookup_imap in Hin.
    destruct Hin as (j & y & Heq & Hl). injection Heq as -> ->. cbn in Hbtn.
    destruct (correction_button y) as [lbl |] eqn:Hy; [| discriminate].
    injection Hbtn as <- <-. eauto.
  - intros (i & m & -> & Hl & Hbtn). exists (i, m). split.
    + apply elem_of_lookup_imap. eauto.
    + cbn. now rewrite Hbtn.
Qed.

Lemma updater_keeps_content (index : Z) (prev next : list Message) :
  Home.toggleFeedback_updater index prev = Ok next ->
  length next = length prev /\ map content next = map content prev.
Proof.
  unfold Home.toggleFeedback_updater.
  destruct (Home.array_get prev index) as [m |] eqn:Hget; [| discriminate].
  apply Feedback_props.array_get_in_range in Hget as [_ Hm].
  destruct (sender m) eqn:Hs; intros [= <-]; [| auto].
  split; [apply length_insert |].
  change (map content) with (fmap (M := list) content).
  rewrite list_fmap_insert. apply list_insert_id.
  rewrite list_lookup_fmap, Hm. cbn. unfold content. cbn. now rewrite Hs.
Qed.

(** X12. Whenever [toggleFeedback]'s updater returns, the list has the
    same length and every turn has the sender, text and feedback it had:
    at most one [showFeedback] flag differs. *)
Theorem toggleFeedback_keeps_content (index : Z) (prev next : list Message) :
  Home.toggleFeedback_updater index prev = Ok next ->
  length next = length prev /\ map content next = map content prev.
Proof. exact (updater_keeps_content index prev next). Qed.

Lemma toggleFeedback_keeps_content_witness :
  length [ {| sender := user; text := Str "Ik wil een koffie";
              feedback := Some (Str "Gebruik 'graag'.");
              showFeedback := Some true |};
           ai_turn "Hier is uw koffie." ] = length (log talked) /\
  map content [ {| sender := user; text := Str "Ik wil een koffie";
                   feedback := Some (Str "Gebruik 'graag'.");
                   showFeedback := Some true |};
                ai_turn "Hier is uw koffie." ] = map content (log talked).
Proof.
  apply (toggleFeedback_keeps_content 0 (log talked)). reflexivity.
Defined.

Lemma updater_twice (index : Z) (prev : list Message) (m : Message)
    (b : bool) :
  Home.array_get prev index = Some m -> sender m = user ->
  showFeedback m = Some b ->
  exists next,
    Home.toggleFeedback_updater index prev = Ok next /\
    next <> prev /\
    Home.toggleFeedback_updater index next = Ok prev.
Proof.
  intros Hget Hs Hb.
  apply Feedback_props.array_get_in_range in Hget as Hm. destruct Hm as [H0 Hm].
  pose proof (lookup_lt_Some _ _ _ Hm) as Hlt.
  unfold Home.toggleFeedback_updater. rewrite Hget, Hs. eexists.
  split; [reflexivity |]. split.
  - intros Heq. apply (f_equal (fun l => l !! Z.to_nat index)) in Heq.
    rewrite list_lookup_insert_eq, Hm in Heq by exact Hlt.
    injection Heq as Heq. apply (f_equal showFeedback) in Heq.
    rewrite Hb in Heq. cbn in Heq. destruct b; discriminate.
  - unfold Home.array_get. destruct (Z.leb_spec 0 index); [| lia].
    rewrite list_lookup_insert_eq by exact Hlt. cbn.
    rewrite list_insert_insert_eq. f_equal. apply list_insert_id.
    rewrite Hm. f_equal. destruct m; cbn in *. subst.
    now rewrite negb_involutive.
Qed.

(** X11. Toggling the same User turn twice gives back the list, provided
    the turn has a boolean [showFeedback] (as every User turn built by
    [handleSuccess] has); after one toggle the list is a different one. *)
Theorem toggleFeedback_twice (index : Z) (prev : list Message) (m : Message)
    (b : bool) :
  Home.array_get prev index = Some m -> sender m = user ->
  showFeedback m = Some b ->
  exists next,
    Home.toggleFeedback_updater index prev = Ok next /\
    next <> prev /\
    Home.toggleFeedback_updater index next = Ok prev.
Proof. exact (updater_twice index prev m b). Qed.

Lemma toggleFeedback_twice_witness :
  exists next,
    Home.toggleFeedback_updater 0 (log talked) = Ok next /\
    next <> log talked /\
    Home.toggleFeedback_updater 0 next = Ok (log talked).
Proof.
  apply (toggleFeedback_twice 0 (log talked)
           (user_turn "Ik wil een koffie" (Str "Gebruik 'graag'.")) false);
    reflexivity.
Defined.

Lemma button_toggles (l : list Message) (index : Z) (label : string) :
  In (index, label) (correction_buttons l) ->
  exists next,
    Home.toggleFeedback_updater index l = Ok next /\
    map content next = map content l /\
    In (index, other_label label) (correction_buttons next).
Proof.
  intros Hin. apply correction_buttons_spec in Hin as (i & m & -> & Hl & Hbtn).
  pose proof (lookup_lt_Some _ _ _ Hl) as Hlt.
  unfold correction_button in Hbtn.
  destruct (sender m) eqn:Hs; [| discriminate].
  destruct (truthy_field (feedback m)) eqn:Hfb; [| discriminate].
  injection Hbtn as <-.
  destruct (Home.toggleFeedback_updater (Z.of_nat i) l) as [next | e] eqn:Hup.
  - exists next. split; [reflexivity |].
    split; [apply (updater_keeps_content _ _ _ Hup) |].
    unfold Home.toggleFeedback_updater in Hup.
    rewrite array_get_of_nat, Hl, Nat2Z.id in Hup. cbn in Hup.
    rewrite Hs in Hup. injection Hup as <-.
    apply correction_buttons_spec. exists i. eexists. split; [reflexivity |].
    split; [now apply list_lookup_insert_eq |].
    unfold correction_button. cbn. rewrite ?Hs, ?Hfb.
    destruct (default false (showFeedback m)); reflexivity.
  - unfold Home.toggleFeedback_updater in Hup.
    rewrite array_get_of_nat, Hl in Hup. cbn in Hup. rewrite Hs in Hup.
    discriminate.
Qed.

(** X13. Every correction button the screen renders is safe to press:
    its index is in range and on a User turn, so the updater returns
    instead of throwing, the turns keep their content, and the same turn is
    rendered with the other label ("Show Correction" / "Hide
    Correction"). *)
Theorem rendered_button_toggles (l : list Message) (index : Z) (label : string) :
  In (index, label) (correction_buttons l) ->
  exists next,
    Home.toggleFeedback_updater index l = Ok next /\
    map content next = map content l /\
    In (index, other_label label) (correction_buttons next).
Proof. exact (button_toggles l index label). Qed.

Lemma rendered_button_toggles_witness :
  exists next,
    Home.toggleFeedback_updater 0 (log talked) = Ok next /\
    map content next = map content (log talked) /\
    In (0%Z, "Hide Correction") (correction_buttons next).
Proof.
  apply (rendered_button_toggles (log talked) 0 "Show Correction").
  cbn. left. reflexivity.
Defined.

Lemma correction_buttons_exchange (l : list Message) (u a : Message) :
  sender a = ai ->
  correction_buttons (l ++ [u; a]) =
  correction_buttons l ++
    match correction_button u with
    | Some label => [(Z.of_nat (length l), label)]
    | None => []
    end.
Proof.
  intros Ha.
  assert (correction_button a = None) as Hna
    by (unfold correction_button; now rewrite Ha).
  unfold correction_buttons. rewrite imap_app, omap_app. f_equal.
  cbn. rewrite Nat.add_0_r, Hna.
  destruct (correction_button u); reflexivity.
Qed.

(** X19. Which correction buttons exist is settled when the response is
    handled: a success response adds one "Show Correction" button, on the
    new User turn, exactly when the render's Live Corrections flag is on
    and the feedback is truthy; otherwise the rendered buttons are the ones
    there were. *)
Theorem handleSuccess_new_button env r data w fb :
  is_success data = true -> get data "feedback" = Ok fb ->
  correction_buttons (log (snd (Home.handleSuccess env r data w))) =
  correction_buttons (log w) ++
    (if liveFeedback r && truthy fb
     then [(Z.of_nat (length (log w)), "Show Correction")] else []).
Proof.
  intros Hs Hfb. apply Log_props.success_is_object in Hs as (fields & -> & Hst).
  cbn in Hfb. injection Hfb as <-.
  rewrite (Log_props.Home_handleSuccess_success env r fields w Hst).
  unfold log. cbn [snd hooks messages with_messages].
  rewrite correction_buttons_exchange by reflexivity.
  f_equal. unfold correction_button. cbn.
  destruct (liveFeedback r); cbn; [| reflexivity].
  destruct (truthy (assoc "feedback" fields)) eqn:Ht; cbn;
    now rewrite ?Ht.
Qed.

Lemma handleSuccess_new_button_witness :
  correction_buttons
    (log (snd (Home.handleSuccess (env_of native None)
                 (with_liveFeedback false Home.initial) koffie talked))) =
  correction_buttons (log talked) ++ [].
Proof.
  apply (handleSuccess_new_button (env_of native None)
           (with_liveFeedback false Home.initial) koffie talked
           (Str "Gebruik 'graag' voor beleefdheid.")); reflexivity.
Defined.

(** *** resetHistory and onRefresh *)

(** X18. [resetHistory] sends one PUT and, besides, only writes console
    lines and the empty list: it never throws, never alerts, sends nothing
    to /chat-audio, and leaves the context, the Live Corrections flag, the
    role descriptions, [isRecording], [isLoading], [refreshing] and the
    recording handle alone, whatever the service answers. *)
Theorem resetHistory_frame env w :
  let out := Home.resetHistory env w in
  fst out = Ok tt /\
  context (hooks (snd out)) = context (hooks w) /\
  liveFeedback (hooks (snd out)) = liveFeedback (hooks w) /\
  userAiPairDescription (hooks (snd out)) = userAiPairDescription (hooks w) /\
  isRecording (hooks (snd out)) = isRecording (hooks w) /\
  isLoading (hooks (snd out)) = isLoading (hooks w) /\
  refreshing (hooks (snd out)) = refreshing (hooks w) /\
  recordingRef (snd out) = recordingRef w /\
  exists rest,
    trace (snd out) = trace w ++ PUT_reset_context :: rest /\
    Forall reset_event rest.
Proof.
  explode w. run_all.
  destruct (fetch_reset_context env) as [s |]; cbn.
  - destruct (Z.eqb s 204); cbn; repeat split;
      eexists; rewrite <- !app_assoc; cbn;
      (split; [reflexivity | repeat constructor]).
  - repeat split. eexists. rewrite <- !app_assoc. cbn.
    split; [reflexivity | repeat constructor].
Qed.

(** X17. Pull-to-refresh always finishes: [onRefresh] does not throw and
    leaves [refreshing] false, so the spinner stops, whether the reset
    request resolved (the log is then empty) or was rejected (the log is
    then the one before). *)
Theorem onRefresh_settles env w :
  let out := Home.onRefresh env w in
  fst out = Ok tt /\
  refreshing (hooks (snd out)) = false /\
  log (snd out) = match fetch_reset_context env with
                  | Some _ => []
                  | None => log w
                  end.
Proof.
  explode w. run_all.
  destruct (fetch_reset_context env) as [s |]; cbn; [| auto].
  destruct (Z.eqb s 204); cbn; auto.
Qed.

(** *** The machine *)

Lemma senders_of_content (l l' : list Message) :
  map content l = map content l' -> map sender l = map sender l'.
Proof.
  intros H. apply (f_equal (map (fun c => fst (fst c)))) in H.
  rewrite !map_map in H. exact H.
Qed.

Lemma updater_keeps_home_log (index : Z) (prev next : list Message) :
  Home.toggleFeedback_updater index prev = Ok next ->
  home_log prev -> home_log next.
Proof.
  intros Hup [Hp Hsh]. split.
  - unfold paired. destruct (updater_keeps_content _ _ _ Hup) as [_ Hc].
    now rewrite (senders_of_content _ _ Hc).
  - unfold Home.toggleFeedback_updater in Hup.
    destruct (Home.array_get prev index) as [m |] eqn:Hget; [| discriminate].
    apply Feedback_props.array_get_in_range in Hget as [_ Hm].
    destruct (sender m) eqn:Hs; injection Hup as <-; [| exact Hsh].
    apply Forall_insert; [exact Hsh |].
    pose proof (proj1 (Forall_lookup _ _) Hsh _ _ Hm) as Hshm.
    unfold shaped in *. cbn. rewrite Hs in *. destruct Hshm as [Hfb _].
    split; [exact Hfb | eauto].
Qed.

Lemma enabled_correction (h : Hooks) (index : Z) :
  enabled (Correction index) h = true ->
  exists label, In (index, label) (correction_buttons (messages h)).
Proof.
  cbn. rewrite existsb_exists. intros (x & Hin & Heq).
  apply Z.eqb_eq in Heq as <-. apply in_map_iff in Hin as ([i label] & <- & Hin).
  eauto.
Qed.

Lemma button_updater (l : list Message) (index : Z) (label : string) :
  In (index, label) (correction_buttons l) ->
  exists next, Home.toggleFeedback_updater index l = Ok next.
Proof.
  intros Hin. apply correction_buttons_spec in Hin as (i & m & -> & Hl & Hbtn).
  unfold Home.toggleFeedback_updater. rewrite array_get_of_nat, Hl.
  destruct (sender m); eauto.
Qed.

Lemma step_invariant (w : World) (a : Action) :
  invariant w -> invariant (step w a).
Proof.
  intros (Hlog & Hroles). unfold step.
  destruct (enabled a (hooks w)) eqn:Hen; [| exact (conj Hlog Hroles)].
  destruct a as [env | c | b | env | env | index]; cbn [handler].
  - unfold Home.toggleRecording, Screen.toggleRecording, after.
    destruct (isLoading (hooks w)); [exact (conj Hlog Hroles) |].
    destruct (isRecording (hooks w)) eqn:Hir.
    + destruct (stopRecording_shape _ env _ (Home_appends_only env) (hooks w) w)
        as (msgs & added & -> & _ & _ & _ & Hinv).
      explode w. cbn in *. split; [apply Hinv; exact Hlog | exact Hroles].
    + explode w. cbn in *.
      unfold Screen.startRecording, setIsRecording, set_recordingRef,
        try_catch, bind, ret, throw, emit, modify.
      cbn.
      destruct (Audio_setAudioModeAsync env); cbn;
        [destruct (Audio_Recording_createAsync env); cbn |];
        exact (conj Hlog Hroles).
  - explode w. cbn in *. repeat split; auto; try constructor.
  - explode w. cbn in *. exact (conj Hlog Hroles).
  - explode w. cbn in *. run_all.
    destruct (fetch_reset_context env) as [s |]; cbn;
      [destruct (Z.eqb s 204); cbn |];
      repeat split; try apply Hlog; auto; try constructor.
  - explode w. cbn in *. run_all.
    destruct (fetch_reset_context env) as [s |]; cbn;
      [destruct (Z.eqb s 204); cbn |];
      repeat split; try apply Hlog; auto; try constructor.
  - apply enabled_correction in Hen as [label Hin].
    destruct (button_updater _ _ _ Hin) as [next Hup].
    pose proof (updater_keeps_home_log _ _ _ Hup Hlog) as Hnext.
    unfold after, Home.toggleFeedback, setMessages_with. rewrite Hup.
    explode w. cbn in *. exact (conj Hnext Hroles).
Qed.

Lemma mounted_invariant : invariant mounted.
Proof. repeat split; constructor. Qed.

Lemma run_invariant (actions : list Action) (w : World) :
  invariant w -> invariant (run actions w).
Proof.
  revert w. induction actions as [| a actions IH]; intros w Hw; [exact Hw |].
  cbn. apply IH. now apply step_invariant.
Qed.

Lemma alternating_even (ss : list Sender) :
  alternating ss = true -> Nat.Even (length ss).
Proof.
  remember (length ss) as n eqn:Hn. revert ss Hn.
  induction n as [n IH] using lt_wf_ind. intros ss Hn Hal.
  destruct ss as [| [] [| [] rest]]; try discriminate; subst.
  - exists 0%nat. reflexivity.
  - cbn in *. destruct (IH (length rest)) with (ss := rest) as [k Hk];
      [lia | reflexivity | exact Hal |].
    exists (S k). lia.
Qed.

(** X14. After any sequence of gestures on the screen with corrections
    (taps, pills, switch, reset, pull-to-refresh, correction buttons, each
    handled to the end, in any environment) the log consists of User/AI
    pairs: even positions hold User turns, odd ones AI turns, and its
    length is even. *)
Theorem reachable_log_is_paired (actions : list Action) :
  let l := log (run actions mounted) in
  paired l /\ Nat.Even (length l) /\
  (forall i m, l !! i = Some m ->
               sender m = if Nat.even i then user else ai).
Proof.
  cbn zeta. destruct (run_invariant actions mounted mounted_invariant)
    as ([Hp _] & _).
  unfold log. split; [exact Hp |]. split.
  - rewrite <- (length_map sender). now apply alternating_even.
  - unfold paired in Hp. intros i m Hm.
    assert (map sender (messages (hooks (run actions mounted))) !! i
            = Some (sender m)) as Hs
      by (change (map sender) with (fmap (M := list) sender);
          now rewrite list_lookup_fmap, Hm).
    revert Hp Hs. generalize (map sender (messages (hooks (run actions mounted)))).
    generalize (sender m). clear. intros s ss. revert ss.
    induction i as [i IH] using lt_wf_ind. intros ss Hal Hs.
    destruct ss as [| [] [| [] rest]]; try discriminate.
    destruct i as [| [| i]]; cbn in *; try congruence.
    rewrite <- (IH i) with (ss := rest); auto.
Qed.

(** X16. After any sequence of gestures, the role descriptions on screen
    are those of the active context: both entries read by the render
    ([0] and [1]) exist. *)
Theorem reachable_roles_match_context (actions : list Action) :
  let h := hooks (run actions mounted) in
  userAiPairDescription h = Home.user_ai_roles (context h) /\
  length (userAiPairDescription h) = 2%nat.
Proof.
  cbn zeta. destruct (run_invariant actions mounted mounted_invariant)
    as (_ & Hroles).
  split; [exact Hroles |]. rewrite Hroles.
  destruct (context (hooks (run actions mounted))); reflexivity.
Qed.

Lemma correction_enabled (h : Hooks) (index : Z) (label : string) :
  In (index, label) (correction_buttons (messages h)) ->
  enabled (Correction index) h = true.
Proof.
  intros Hin. cbn. apply existsb_exists. exists index. split.
  - apply in_map_iff. exists (index, label). auto.
  - apply Z.eqb_refl.
Qed.

(** X20. No handler lets an exception escape under the gestures the
    screen accepts: for every world and every enabled gesture (the mic
    unless disabled, a pill, the switch, reset, pull-to-refresh, a rendered
    correction button) the handler returns normally, in every
    environment. *)
Theorem enabled_handler_returns (w : World) (a : Action) :
  enabled a (hooks w) = true ->
  fst (handler a (hooks w) w) = Ok tt.
Proof.
  intros Hen. destruct a as [env | c | b | env | env | index]; cbn [handler].
  - unfold Home.toggleRecording, Screen.toggleRecording.
    destruct (isLoading (hooks w)); [reflexivity |].
    destruct (isRecording (hooks w)).
    + destruct (stopRecording_shape _ env _ (Home_appends_only env) (hooks w) w)
        as (msgs & added & -> & _). reflexivity.
    + unfold Screen.startRecording, setIsRecording, set_recordingRef,
        try_catch, bind, ret, throw, emit, modify.
      cbn.
      destruct (Audio_setAudioModeAsync env); cbn;
        [destruct (Audio_Recording_createAsync env); cbn |]; reflexivity.
  - reflexivity.
  - reflexivity.
  - run_all. destruct (fetch_reset_context env) as [s |]; cbn;
      [destruct (Z.eqb s 204); cbn |]; reflexivity.
  - run_all. destruct (fetch_reset_context env) as [s |]; cbn;
      [destruct (Z.eqb s 204); cbn |]; reflexivity.
  - apply enabled_correction in Hen as [label Hin].
    destruct (button_updater _ _ _ Hin) as [next Hup].
    unfold Home.toggleFeedback, setMessages_with. now rewrite Hup.
Qed.

Lemma enabled_handler_returns_witness :
  fst (handler (Correction 0) (hooks talked) talked) = Ok tt.
Proof.
  apply (enabled_handler_returns talked (Correction 0)). reflexivity.
Defined.

(** X21. In every state the screen can reach, pressing a rendered
    correction button twice brings back exactly the log there was: the
    correction is shown, then hidden again, and nothing else changes in
    the list. *)
Theorem reachable_double_toggle (actions : list Action) (index : Z) :
  let w := run actions mounted in
  enabled (Correction index) (hooks w) = true ->
  log (step (step w (Correction index)) (Correction index)) = log w.
Proof.
  cbn zeta. set (w := run actions mounted).
  destruct (run_invariant actions mounted mounted_invariant)
    as ([_ Hsh] & _). fold w in Hsh.
  intros Hen. apply enabled_correction in Hen as Hbtn.
  destruct Hbtn as [label Hin].
  apply correction_buttons_spec in Hin as Hspec.
  destruct Hspec as (i & m & -> & Hl & Hb).
  pose proof (proj1 (Forall_lookup _ _) Hsh _ _ Hl) as Hm.
  unfold correction_button in Hb. unfold shaped in Hm.
  destruct (sender m) eqn:Hs; [| discriminate].
  destruct Hm as [_ [b Hshow]].
  destruct (updater_twice (Z.of_nat i) (messages (hooks w)) m b)
    as (next & Hup & _ & Hback); [now rewrite array_get_of_nat | auto | auto |].
  destruct (button_toggles _ _ _ Hin) as (next' & Hup' & _ & Hin').
  rewrite Hup in Hup'. injection Hup' as <-.
  unfold step at 2. rewrite Hen.
  unfold after, handler, Home.toggleFeedback, setMessages_with. rewrite Hup.
  unfold step. cbn [snd].
  assert (enabled (Correction (Z.of_nat i))
            (hooks (setMessages next w).2) = true) as Hen'.
  { apply correction_enabled with (label := other_label label).
    explode w. exact Hin'. }
  rewrite Hen'. unfold after, handler, Home.toggleFeedback, setMessages_with.
  replace (messages (hooks (setMessages next w).2)) with next
    by (explode w; reflexivity).
  rewrite Hback. explode w. reflexivity.
Qed.

Lemma reachable_double_toggle_witness :
  let heard := env_of native (Some {| status := 200; body := Some koffie |}) in
  let w := run [Tap heard; Tap heard] mounted in
  log (step (step w (Correction 0)) (Correction 0)) = log w.
Proof.
  apply (reachable_double_toggle
           [Tap (env_of native (Some {| status := 200; body := Some koffie |}));
            Tap (env_of native (Some {| status := 200; body := Some koffie |}))]
           0).
  reflexivity.
Defined.

(** *** More on uploads, runs of responses and the reset *)

(** X23. Every transport failure is reported the same way and appends
    nothing: when the service gives no answer, the body is not JSON or, on
    the native branch, the status is not 200, the log is unchanged and the
    "Connection Error" alert is raised, on both screens. *)
Theorem transport_failure_alerts env r uri w :
  transport_rejected env ->
  let notice := Alert_alert "Connection Error" "Could not reach the AI server." in
  let home := snd (Home.uploadAudio env r uri w) in
  let index := snd (Index.uploadAudio env r uri w) in
  log home = log w /\ In notice (trace home) /\
  log index = log w /\ In notice (trace index).
Proof.
  unfold transport_rejected, response_of. intros Hrej. run_all.
  destruct (Platform_OS env); cbn.
  - destruct (fetch_uri_blob env); cbn.
    + destruct (fetch_chat_audio env) as [[st [data |]] |]; cbn in *.
      * destruct Hrej as [Hb | [Hos _]]; discriminate.
      * rewrite !in_app_iff. cbn. auto 10.
      * rewrite !in_app_iff. cbn. auto 10.
    + rewrite !in_app_iff. cbn. auto 10.
  - destruct (FileSystem_uploadAsync env) as [[st body] |]; cbn in *.
    + destruct (Z.eqb_spec st 200) as [-> | Hne]; cbn.
      * destruct Hrej as [-> | [_ Hst]]; [| contradiction].
        cbn. rewrite !in_app_iff. cbn. auto 10.
      * rewrite !in_app_iff. cbn. auto 10.
    + rewrite !in_app_iff. cbn. auto 10.
Qed.

Lemma transport_failure_alerts_witness :
  let env := env_of native (Some {| status := 503; body := Some koffie |}) in
  let notice := Alert_alert "Connection Error" "Could not reach the AI server." in
  let home := snd (Home.uploadAudio env Home.initial "file:///rec.m4a" talked) in
  let index := snd (Index.uploadAudio env Home.initial "file:///rec.m4a" talked) in
  log home = log talked /\ In notice (trace home) /\
  log index = log talked /\ In notice (trace index).
Proof.
  apply (transport_failure_alerts
           (env_of native (Some {| status := 503; body := Some koffie |}))
           Home.initial "file:///rec.m4a" talked).
  right. split; [reflexivity | discriminate].
Defined.

(** X22. Success responses handled one after the other add two turns
    each: after [n] of them the log is [2 * n] turns longer, on both
    screens. *)
Theorem handled_successes_add_two_each env (ds : list (Hooks * Value)) (w : World) :
  Forall (fun d => is_success (snd d) = true) ds ->
  length (log (handle_all (Home.handleSuccess env) ds w))
  = (length (log w) + 2 * length ds)%nat /\
  length (log (handle_all (Index.handleSuccess env) ds w))
  = (length (log w) + 2 * length ds)%nat.
Proof. exact (Log_props.handle_all_success_length env ds w). Qed.

Lemma handled_successes_add_two_each_witness :
  let ds := [(Home.initial, koffie); (Index.initial, bare_success)] in
  length (log (handle_all (Home.handleSuccess (env_of web None)) ds talked))
  = (length (log talked) + 2 * length ds)%nat /\
  length (log (handle_all (Index.handleSuccess (env_of web None)) ds talked))
  = (length (log talked) + 2 * length ds)%nat.
Proof.
  apply (handled_successes_add_two_each (env_of web None)
           [(Home.initial, koffie); (Index.initial, bare_success)] talked).
  repeat constructor.
Defined.

(** X24. Once PUT /reset_context resolves, the status does not matter to
    the screen: with 204 or with any other code the log is emptied by one
    write, the role descriptions are shown again and no alert is raised;
    a code other than 204 only adds a console line. *)
Theorem resetHistory_clears_on_any_status env (s : Z) (w : World) :
  fetch_reset_context env = Some s ->
  let out := Home.resetHistory env w in
  fst out = Ok tt /\
  log (snd out) = [] /\
  displayRoles (hooks (snd out)) = true /\
  trace (snd out) =
    trace w ++ PUT_reset_context ::
      (if negb (Z.eqb s 204)
       then [console_log "Could not reset history." None] else [])
      ++ [SetMessages []].
Proof.
  intros Hs.
  destruct (Reset_props.resetHistory_resolved env s w Hs)
    as (Hok & Hlog & Hroles & _ & _ & Htrace).
  auto.
Qed.

Lemma resetHistory_clears_on_any_status_witness :
  let out := Home.resetHistory (env_reset (Some 404%Z)) talked in
  fst out = Ok tt /\
  log (snd out) = [] /\
  displayRoles (hooks (snd out)) = true /\
  trace (snd out) =
    trace talked ++ PUT_reset_context ::
      (if negb (Z.eqb 404 204)
       then [console_log "Could not reset history." None] else [])
      ++ [SetMessages []].
Proof.
  apply (resetHistory_clears_on_any_status (env_reset (Some 404%Z)) 404 talked).
  reflexivity.
Defined.

End Handler_props.

(** * toggleFeedback on the turns the screen passes *)

Module Feedback_contract.
Import Js Screen Session View Machine.
Local Open Scope list_scope.

(** C2, amended. For every message list and every index that references
    a turn of the list, [toggleFeedback] returns to its caller and the
    update goes through without an exception: on an AI turn the log is
    left unchanged, on a User turn only that turn's [showFeedback] flag is
    flipped. These are the only indices the screen passes: every rendered
    correction button carries the index of a User turn of the list. *)
Theorem toggleFeedback_in_range_turn (w : World) (index : Z) (m : Message) :
  Home.array_get (log w) index = Some m ->
  let out := Home.toggleFeedback index w in
  fst out = Ok tt /\
  trace (snd out) = trace w ++ [SetMessages (log (snd out))] /\
  match sender m with
  | ai => log (snd out) = log w
  | user =>
      length (log (snd out)) = length (log w) /\
      (forall j, j <> Z.to_nat index -> log (snd out) !! j = log w !! j) /\
      log (snd out) !! Z.to_nat index =
        Some {| sender := user; text := text m; feedback := feedback m;
                showFeedback := Some (negb (default false (showFeedback m))) |}
  end /\
  (forall i label,
      In (i, label) (correction_buttons (log w)) ->
      exists m', Home.array_get (log w) i = Some m' /\ sender m' = user).
Proof.
  intros Hget. cbn zeta. unfold Home.toggleFeedback, setMessages_with.
  assert (forall i label,
             In (i, label) (correction_buttons (log w)) ->
             exists m', Home.array_get (log w) i = Some m' /\ sender m' = user)
    as Hbuttons.
  { intros i label Hin.
    apply Handler_props.correction_buttons_spec in Hin as (n & m' & -> & Hl & Hb).
    exists m'. rewrite Handler_props.array_get_of_nat. split; [exact Hl |].
    unfold correction_button in Hb. destruct (sender m'); [reflexivity | discriminate]. }
  destruct (sender m) eqn:Hs.
  - destruct (Feedback_props.toggleFeedback_updater_user index (log w) m Hget Hs)
      as (next & Hup & Hlen & Hother & Hat).
    unfold log in *. rewrite Hup. destruct w as [h ref tr]. cbn in *.
    repeat split; auto.
  - pose proof (Feedback_props.toggleFeedback_updater_ai index (log w) m Hget Hs)
      as Hup.
    unfold log in *. rewrite Hup. destruct w as [[] ref tr]. cbn in *.
    repeat split; auto.
Qed.

Lemma toggleFeedback_in_range_turn_witness :
  let out := Home.toggleFeedback 0 talked in
  fst out = Ok tt /\
  trace (snd out) = trace talked ++ [SetMessages (log (snd out))] /\
  (length (log (snd out)) = length (log talked) /\
   (forall j, j <> Z.to_nat 0 -> log (snd out) !! j = log talked !! j) /\
   log (snd out) !! Z.to_nat 0 =
     Some {| sender := user; text := Str "Ik wil een koffie";
             feedback := Some (Str "Gebruik 'graag'.");
             showFeedback := Some true |}) /\
  (forall i label,
      In (i, label) (correction_buttons (log talked)) ->
      exists m', Home.array_get (log talked) i = Some m' /\ sender m' = user).
Proof.
  apply (toggleFeedback_in_range_turn talked 0
           (user_turn "Ik wil een koffie" (Str "Gebruik 'graag'."))).
  reflexivity.
Defined.

End Feedback_contract.
